(** * mail_manager.py: accounts, credentials, OAuth tokens and session opening

    A shallow embedding of the account and authentication layer of
    [skills/mail-manager/scripts/mail_manager.py]: the [SERVERS] registry,
    [get_credentials], the token file ([save_tokens], [load_tokens],
    [get_valid_access_token]), the two token-endpoint exchanges
    ([exchange_code_for_tokens], [refresh_access_token]),
    [generate_oauth2_string], the session openers ([connect_imap] and the
    authentication part of [send_email]) and [oauth_status].

    Python strings are modelled as byte strings (the UTF-8 encoding of the
    text), so [str.encode()] and [bytes.decode()] are the identity.  The
    mail servers, the identity provider, the process environment, the clock
    and the disk are a [world] of oracles; the token file and the log of the
    external calls made form the [state] that the functions thread. *)

From Stdlib Require Import ZArith NArith Lia Ascii String.
From stdpp Require Import base option list strings pretty gmap.

Open Scope string_scope.

(** ** Python strings *)

Module PyStr.

(** [bool(s)]: a string is true when it is not empty. *)
Definition truthy (s : string) : bool :=
  match s with
  | EmptyString => false
  | String _ _ => true
  end.

(** [s.replace(" ", "")]: every occurrence of the one-character pattern
    is deleted, all other characters are kept in order. *)
Fixpoint replace_space (s : string) : string :=
  match s with
  | EmptyString => EmptyString
  | String c rest =>
      if Ascii.eqb c " "%char then replace_space rest
      else String c (replace_space rest)
  end.

(** [c in s] for a single character. *)
Fixpoint contains_char (c : ascii) (s : string) : bool :=
  match s with
  | EmptyString => false
  | String d rest => Ascii.eqb c d || contains_char c rest
  end.

(** [sub in s]: substring test. *)
Fixpoint contains (sub s : string) : bool :=
  String.prefix sub s ||
  match s with
  | EmptyString => false
  | String _ rest => contains sub rest
  end.



End PyStr.

(** ** base64.b64encode (RFC 4648, standard alphabet, padded) *)

Module Base64.

Definition alphabet : string :=
  "ABCDEFGHIJKLMNOPQRSTUVWXYZabcdefghijklmnopqrstuvwxyz0123456789+/".

Definition digit (n : N) : ascii :=
  match String.get (N.to_nat n) alphabet with
  | Some c => c
  | None => "="%char
  end.

(** The four 6-bit digits of a 24-bit group. *)
Definition sextet (group : N) (i : N) : ascii :=
  digit (N.land (N.shiftr group (18 - 6 * i)) 63).

Definition group3 (a b c : N) : N :=
  N.lor (N.shiftl a 16) (N.lor (N.shiftl b 8) c).

Fixpoint encode_bytes (l : list N) : string :=
  match l with
  | [] => ""
  | [a] =>
      let g := group3 a 0 0 in
      String (sextet g 0) (String (sextet g 1) "==")
  | [a; b] =>
      let g := group3 a b 0 in
      String (sextet g 0) (String (sextet g 1) (String (sextet g 2) "="))
  | a :: b :: c :: rest =>
      let g := group3 a b c in
      String (sextet g 0) (String (sextet g 1)
        (String (sextet g 2) (String (sextet g 3) (encode_bytes rest))))
  end.

Definition b64encode (s : string) : string :=
  encode_bytes (map N_of_ascii (list_ascii_of_string s)).

End Base64.

(** ** generate_oauth2_string *)

(** The control byte [\x01]. *)
Definition SOH : string := String (ascii_of_N 1) EmptyString.

(** [f"user={username}\x01auth=Bearer {access_token}\x01\x01"], then
    base64 when [encode_base64] is set. *)
Definition generate_oauth2_string
    (username access_token : string) (encode_base64 : bool) : string :=
  let auth_string :=
    "user=" +:+ username +:+ SOH +:+ "auth=Bearer " +:+ access_token
      +:+ SOH +:+ SOH in
  if encode_base64 then Base64.b64encode auth_string else auth_string.

(** ** JSON values as Python objects

    [json.load] yields [None], a bool, a number, a string, a list or a dict.
    Token responses carry strings and integers, so the members of a list or
    dict are scalars here. *)

Inductive jval :=
| JNull
| JBool (b : bool)
| JInt (z : Z)
| JStr (s : string).

Inductive json :=
| JScalar (v : jval)
| JList (l : list jval)
| JDict (d : gmap string jval).

(** Python's [None]. *)
Definition PyNone : json := JScalar JNull.

(** ** Exceptions *)

Inductive exn :=
| FileNotFoundError (msg : string)
| OSError (msg : string)              (* PermissionError, socket errors, URLError, ... *)
| UnicodeDecodeError (msg : string)
| JSONDecodeError (msg : string)
| HTTPError (msg body : string)       (* [body] is what [e.read().decode()] gives *)
| KeyError (key : string)
| TypeError (msg : string)
| AttributeError (msg : string)
| IMAP4_error (msg : string)          (* imaplib.IMAP4.error and its subclasses abort, readonly *)
| SMTPAuthenticationError (msg : string)
| SMTPException (msg : string)        (* the other subclasses of smtplib.SMTPException *)
| OtherException (msg : string).

(** [str(e)]. *)
Definition str_exn (e : exn) : string :=
  match e with
  | FileNotFoundError msg | OSError msg | UnicodeDecodeError msg
  | JSONDecodeError msg | HTTPError msg _ | TypeError msg
  | AttributeError msg | IMAP4_error msg | SMTPAuthenticationError msg
  | SMTPException msg | OtherException msg => msg
  | KeyError key => "'" +:+ key +:+ "'"
  end.

(** A value or a raised exception. *)
Inductive outcome (A : Type) :=
| Returns (a : A)
| Raises (e : exn).
Arguments Returns {A} a.
Arguments Raises {A} e.

Module PyVal.

(** [str(v)], as an f-string or [urlencode] renders a scalar. *)
Definition str (v : jval) : string :=
  match v with
  | JNull => "None"
  | JBool true => "True"
  | JBool false => "False"
  | JInt z => pretty z
  | JStr s => s
  end.

Definition truthy_scalar (v : jval) : bool :=
  match v with
  | JNull => false
  | JBool b => b
  | JInt z => negb (z =? 0)%Z
  | JStr s => PyStr.truthy s
  end.

(** [bool(v)]: [None], [False], [0] and empty containers are false. *)
Definition truthy (v : json) : bool :=
  match v with
  | JScalar x => truthy_scalar x
  | JList l => match l with [] => false | _ :: _ => true end
  | JDict d => negb (bool_decide (d = ∅))
  end.

Definition is_str (key : string) (v : jval) : bool :=
  match v with
  | JStr s => String.eqb s key
  | _ => false
  end.

(** [key in v]. *)
Definition contains (key : string) (v : json) : outcome bool :=
  match v with
  | JDict d =>
      match d !! key with
      | Some _ => Returns true
      | None => Returns false
      end
  | JList l => Returns (existsb (is_str key) l)
  | JScalar (JStr s) => Returns (PyStr.contains key s)
  | JScalar _ => Raises (TypeError "argument is not iterable")
  end.

(** [v[key]]. *)
Definition getitem (key : string) (v : json) : outcome jval :=
  match v with
  | JDict d =>
      match d !! key with
      | Some x => Returns x
      | None => Raises (KeyError key)
      end
  | JList _ => Raises (TypeError "list indices must be integers or slices, not str")
  | JScalar (JStr _) => Raises (TypeError "string indices must be integers")
  | JScalar _ => Raises (TypeError "object is not subscriptable")
  end.

(** [v[key] = x]; the dict is updated in place, the result is the
    object after the update. *)
Definition setitem (key : string) (x : jval) (v : json) : outcome json :=
  match v with
  | JDict d => Returns (JDict (<[key := x]> d))
  | _ => Raises (TypeError "object does not support item assignment")
  end.

(** [v.get(key, dflt)]. *)
Definition get (key : string) (dflt : jval) (v : json) : outcome jval :=
  match v with
  | JDict d => Returns (default dflt (d !! key))
  | _ => Raises (AttributeError "object has no attribute 'get'")
  end.

(** Truth of an optional string ([None] or a [str]). *)
Definition truthy_opt (o : option string) : bool :=
  match o with
  | Some s => PyStr.truthy s
  | None => false
  end.

(** An optional string inside an f-string. *)
Definition str_opt (o : option string) : string := default "None" o.

End PyVal.

(** ** datetime.now().isoformat() *)

Record datetime := {
  year : nat; month : nat; day : nat;
  hour : nat; minute : nat; second : nat; microsecond : nat
}.

Fixpoint zeros (n : nat) : string :=
  match n with
  | O => ""
  | S k => String "0"%char (zeros k)
  end.

(** [str(n).zfill(width)] *)
Definition zfill (width : nat) (n : nat) : string :=
  let s := pretty n in
  zeros (width - String.length s) +:+ s.

Definition isoformat (t : datetime) : string :=
  zfill 4 (year t) +:+ "-" +:+ zfill 2 (month t) +:+ "-" +:+ zfill 2 (day t)
    +:+ "T" +:+ zfill 2 (hour t) +:+ ":" +:+ zfill 2 (minute t) +:+ ":"
    +:+ zfill 2 (second t)
    +:+ (if (microsecond t =? 0)%nat then ""
         else "." +:+ zfill 6 (microsecond t)).

(** ** The world outside the program *)

Inductive role := Read | Send.

(** What [json.loads] makes of a text. *)
Inductive parse_result :=
| Parses (v : json)
| Malformed (msg : string).      (* json.JSONDecodeError *)

(** The token file, seen through [open(TOKEN_FILE, "r")] and [json.load]. *)
Inductive file_state :=
| Missing                        (* open raises FileNotFoundError *)
| Unreadable (msg : string)      (* open or read raises another OSError *)
| Undecodable (msg : string)     (* the bytes are not text: UnicodeDecodeError *)
| Holds (content : parse_result).

(** A form-encoded POST to the token endpoint. *)
Record token_request := {
  token_url : string;
  form : list (string * string)
}.

Inductive http_reply :=
| Responds (body : parse_result) (* status 200; the body goes to [json.loads] *)
| Fails (e : exn).               (* [urlopen] raises: HTTPError, URLError, ... *)

(** The external calls a run makes, in order. *)
Inductive event :=
| Connect (r : role) (host : string) (port : Z)
| Ehlo
| StartTLS
| Authenticate (r : role) (auth_string : string)
| Login (r : role) (user password : option string)
| TokenRequest (req : token_request)
| FileWrite (content : json)
| SendMessage.

Record world := {
  (** [os.environ] *)
  environ : gmap string string;
  (** [int(os.environ.get("AC_CRETEIL_IMAP_PORT", "993"))] and the SMTP
      one, as computed when the module was imported *)
  ac_creteil_imap_port : Z;
  ac_creteil_smtp_port : Z;
  (** [datetime.now()] at the n-th external call *)
  now : nat -> datetime;
  (** [os.makedirs(..., exist_ok=True)] and [open(TOKEN_FILE, "w")]:
      [Some msg] when they raise an OSError *)
  makedirs_fault : option string;
  open_write_fault : option string;
  (** the token endpoint *)
  token_endpoint : token_request -> http_reply;
  (** [imaplib.IMAP4_SSL(host, port)] *)
  imap_connect : string -> Z -> option exn;
  (** the n-th [mail.authenticate("XOAUTH2", ...)] of a session *)
  imap_authenticate : nat -> string -> option exn;
  (** [mail.login(user, password)] *)
  imap_login : option string -> option string -> option exn;
  (** [smtplib.SMTP(host, port)] or [smtplib.SMTP_SSL(host, port)] *)
  smtp_connect : bool -> string -> Z -> option exn;
  (** the n-th [server.ehlo()], and [server.starttls()] *)
  smtp_ehlo : nat -> option exn;
  smtp_starttls : option exn;
  (** the n-th [server.auth("XOAUTH2", ...)] of a session *)
  smtp_auth : nat -> string -> option exn;
  (** [server.login(user, password)] and [server.send_message(msg)] *)
  smtp_login : option string -> option string -> option exn;
  smtp_send_message : option exn
}.

(** ** State and the monad of the program *)

Record state := {
  token_file : file_state;
  trace : list event
}.

Definition initial (f : file_state) : state :=
  {| token_file := f; trace := [] |}.

Definition M (A : Type) : Type := state -> outcome A * state.

Definition ret {A} (a : A) : M A := fun s => (Returns a, s).

Definition bind {A B} (m : M A) (k : A -> M B) : M B :=
  fun s =>
    match m s with
    | (Returns a, s') => k a s'
    | (Raises e, s') => (Raises e, s')
    end.

Definition raise {A} (e : exn) : M A := fun s => (Raises e, s).

(** Lift a pure Python operation that may raise. *)
Definition lift {A} (o : outcome A) : M A := fun s => (o, s).

(** [try: body / except ...: handler]; a handler answering [None] does not
    match, and the exception goes on. *)
Definition try_except {A} (body : M A) (handler : exn -> option (M A)) : M A :=
  fun s =>
    match body s with
    | (Returns a, s') => (Returns a, s')
    | (Raises e, s') =>
        match handler e with
        | Some h => h s'
        | None => (Raises e, s')
        end
    end.

Global Instance M_ret : MRet M := @ret.
Global Instance M_bind : MBind M := fun A B k m => bind m k.

(** Log an external call. *)
Definition emit (e : event) : M unit :=
  fun s => (Returns tt, {| token_file := token_file s; trace := trace s ++ [e] |}).

(** An external call that may raise. *)
Definition call (e : event) (reply : option exn) : M unit :=
  emit e ;;
  match reply with
  | None => ret tt
  | Some x => raise x
  end.

(** How many events of a kind the run has made so far. *)
Definition is_auth (r : role) (e : event) : bool :=
  match e, r with
  | Authenticate Read _, Read | Authenticate Send _, Send => true
  | _, _ => false
  end.

Definition is_token_request (e : event) : bool :=
  match e with TokenRequest _ => true | _ => false end.

Definition is_file_write (e : event) : bool :=
  match e with FileWrite _ => true | _ => false end.

Fixpoint count (p : event -> bool) (t : list event) : nat :=
  match t with
  | [] => 0
  | e :: rest => if p e then S (count p rest) else count p rest
  end.

(** The auth strings presented to a server, in order. *)
Fixpoint auth_strings (r : role) (t : list event) : list string :=
  match t with
  | [] => []
  | Authenticate r' s :: rest =>
      if is_auth r (Authenticate r' s) then s :: auth_strings r rest
      else auth_strings r rest
  | _ :: rest => auth_strings r rest
  end.

(** The requests sent to the token endpoint, in order. *)
Fixpoint token_requests (t : list event) : list token_request :=
  match t with
  | [] => []
  | TokenRequest req :: rest => req :: token_requests rest
  | _ :: rest => token_requests rest
  end.

(** ** The error and success records the program returns *)

(** [{"success": False, "error": ...}] *)
Record error_record := {
  success : bool;
  error : string
}.

Definition failure (msg : string) : error_record :=
  {| success := false; error := msg |}.

(** The [mail] object of [connect_imap]. *)
Inductive imap_session :=
| IMAP4_SSL (host : string) (port : Z).

(** The dict [send_email] returns. *)
Inductive send_result :=
| SendSuccess (message : string) (from_addr to_addr subject account : string)
| SendFailure (e : error_record).

(** The dict [oauth_status] returns. *)
Inductive status_report :=
| NotConfigured (message : string)
| Configured (saved_at : jval) (has_refresh_token : bool) (token_file : string).

(** An entry of [SERVERS]. *)
Record server_config := {
  imap : string;
  imap_port : Z;
  smtp : string;
  smtp_port : Z;
  email_env : string;
  password_env : string;
  imap_login_env : option string;
  use_ssl_smtp : bool;
  use_oauth : bool
}.

(** [os.path.join(a, b)] for a relative [b]. *)
Definition path_join (a b : string) : string :=
  match a with
  | "" => b
  | _ =>
      if String.eqb (String.substring (String.length a - 1) 1 a) "/"
      then a +:+ b
      else a +:+ "/" +:+ b
  end.

Section Program.

Variable w : world.

(** [os.environ.get(name)] and [os.environ.get(name, dflt)] *)
Definition environ_get (name : string) : option string :=
  environ w !! name.

Definition environ_get_default (name dflt : string) : string :=
  default dflt (environ w !! name).

(** *** Module constants *)

Definition TOKEN_FILE : string :=
  path_join (path_join (path_join (environ_get_default "HOME" "/root")
    ".openclaw") "credentials") "hotmail_tokens.json".

Definition AZURE_CLIENT_ID : string := environ_get_default "AZURE_CLIENT_ID" "".
Definition AZURE_TENANT_ID : string :=
  environ_get_default "AZURE_TENANT_ID" "consumers".
Definition AZURE_REDIRECT_URI : string :=
  "https://login.microsoftonline.com/common/oauth2/nativeclient".
Definition AZURE_SCOPES : string :=
  "https://outlook.office.com/IMAP.AccessAsUser.All https://outlook.office.com/SMTP.Send offline_access".

Definition gmail_config : server_config := {|
  imap := "imap.gmail.com"; imap_port := 993;
  smtp := "smtp.gmail.com"; smtp_port := 587;
  email_env := "GMAIL_ADDRESS"; password_env := "GMAIL_APP_PASSWORD";
  imap_login_env := None;
  use_ssl_smtp := false; use_oauth := false |}.

Definition ac_creteil_config : server_config := {|
  imap := environ_get_default "AC_CRETEIL_IMAP" "imap.ac-creteil.fr";
  imap_port := ac_creteil_imap_port w;
  smtp := environ_get_default "AC_CRETEIL_SMTP" "smtp.ac-creteil.fr";
  smtp_port := ac_creteil_smtp_port w;
  email_env := "AC_CRETEIL_EMAIL"; password_env := "AC_CRETEIL_PASSWORD";
  imap_login_env := Some "AC_CRETEIL_IMAP_LOGIN";
  use_ssl_smtp := true; use_oauth := false |}.

Definition hotmail_config : server_config := {|
  imap := "outlook.office365.com"; imap_port := 993;
  smtp := "smtp.office365.com"; smtp_port := 587;
  email_env := "HOTMAIL_ADDRESS"; password_env := "HOTMAIL_APP_PASSWORD";
  imap_login_env := None;
  use_ssl_smtp := false; use_oauth := true |}.

Definition SERVERS : gmap string server_config :=
  <["gmail" := gmail_config]>
    (<["ac-creteil" := ac_creteil_config]>
      (<["hotmail" := hotmail_config]> ∅)).

(** *** Token store *)

(** [with open(TOKEN_FILE, "r") as f: json.load(f)] *)
Definition json_load_file : M json :=
  fun s =>
    match token_file s with
    | Missing => (Raises (FileNotFoundError TOKEN_FILE), s)
    | Unreadable msg => (Raises (OSError msg), s)
    | Undecodable msg => (Raises (UnicodeDecodeError msg), s)
    | Holds (Malformed msg) => (Raises (JSONDecodeError msg), s)
    | Holds (Parses v) => (Returns v, s)
    end.

(** [os.makedirs(os.path.dirname(TOKEN_FILE), exist_ok=True)] *)
Definition makedirs : M unit :=
  match makedirs_fault w with
  | Some msg => raise (OSError msg)
  | None => ret tt
  end.

(** [with open(TOKEN_FILE, "w") as f: json.dump(tokens, f, indent=2)] *)
Definition json_dump_file (tokens : json) : M unit :=
  match open_write_fault w with
  | Some msg => raise (OSError msg)
  | None =>
      fun s => (Returns tt, {| token_file := Holds (Parses tokens);
                               trace := trace s ++ [FileWrite tokens] |})
  end.

(** [datetime.now().isoformat()] *)
Definition now_isoformat : M string :=
  fun s => (Returns (isoformat (now w (length (trace s)))), s).

(** [save_tokens(tokens)].  The dict is stamped in place, so the caller's
    object changes too: the stamped dict is handed back. *)
Definition save_tokens (tokens : json) : M json :=
  makedirs ;;
  stamp ← now_isoformat ;
  tokens ← lift (PyVal.setitem "saved_at" (JStr stamp) tokens) ;
  json_dump_file tokens ;;
  mret tokens.

Definition load_tokens : M json :=
  try_except json_load_file
    (fun e =>
       match e with
       | FileNotFoundError _ => Some (mret PyNone)
       | JSONDecodeError _ => Some (mret PyNone)
       | _ => None
       end).

(** Returns the pair [(access_token, error)]. *)
Definition get_valid_access_token : M (jval * option string) :=
  tokens ← load_tokens ;
  if negb (PyVal.truthy tokens) then
    mret (JNull, Some "No tokens found. Run 'oauth-init' first.")
  else
    has ← lift (PyVal.contains "access_token" tokens) ;
    if (has : bool) then
      access_token ← lift (PyVal.getitem "access_token" tokens) ;
      mret (access_token, None)
    else
      mret (JNull, Some "No access token found").

(** *** Token endpoint *)

(** [urllib.request.urlopen(req)] then [json.loads(response.read().decode())] *)
Definition urlopen_json (req : token_request) : M json :=
  emit (TokenRequest req) ;;
  match token_endpoint w req with
  | Fails e => raise e
  | Responds (Malformed msg) => raise (JSONDecodeError msg)
  | Responds (Parses v) => mret v
  end.

Definition token_endpoint_url : string :=
  "https://login.microsoftonline.com/" +:+ AZURE_TENANT_ID +:+ "/oauth2/v2.0/token".

Definition credentials_configured : bool :=
  PyStr.truthy AZURE_CLIENT_ID && PyStr.truthy AZURE_TENANT_ID.

Definition exchange_request (auth_code : string) : token_request := {|
  token_url := token_endpoint_url;
  form := [("client_id", AZURE_CLIENT_ID); ("code", auth_code);
           ("redirect_uri", AZURE_REDIRECT_URI);
           ("grant_type", "authorization_code"); ("scope", AZURE_SCOPES)] |}.

Definition refresh_request (refresh_token : jval) : token_request := {|
  token_url := token_endpoint_url;
  form := [("client_id", AZURE_CLIENT_ID);
           ("refresh_token", PyVal.str refresh_token);
           ("grant_type", "refresh_token"); ("scope", AZURE_SCOPES)] |}.

(** Returns the pair [(tokens, error)]. *)
Definition exchange_code_for_tokens (auth_code : string)
  : M (json * option string) :=
  if negb credentials_configured then
    mret (PyNone, Some "Azure OAuth credentials not configured")
  else
    try_except
      (tokens ← urlopen_json (exchange_request auth_code) ;
       tokens ← save_tokens tokens ;
       mret (tokens, None))
      (fun e =>
         match e with
         | HTTPError _ error_body =>
             Some (mret (PyNone, Some ("Token exchange failed: " +:+ error_body)))
         | _ =>
             Some (mret (PyNone, Some ("Token exchange failed: " +:+ str_exn e)))
         end).

Definition refresh_access_token (refresh_token : jval)
  : M (json * option string) :=
  if negb credentials_configured then
    mret (PyNone, Some "Azure OAuth credentials not configured")
  else
    try_except
      (tokens ← urlopen_json (refresh_request refresh_token) ;
       tokens ← save_tokens tokens ;
       mret (tokens, None))
      (fun e =>
         match e with
         | HTTPError _ error_body =>
             Some (mret (PyNone, Some ("Token refresh failed: " +:+ error_body)))
         | _ =>
             Some (mret (PyNone, Some ("Token refresh failed: " +:+ str_exn e)))
         end).

(** *** Credentials *)

(** Returns the triple [(address, password, error)]. *)
Definition get_credentials (account : string)
  : option string * option string * option string :=
  match SERVERS !! account with
  | None => (None, None, Some ("Unknown account: " +:+ account))
  | Some config =>
      let address := environ_get (email_env config) in
      let password := environ_get (password_env config) in
      if negb (PyVal.truthy_opt address) then
        (None, None, Some ("Missing " +:+ email_env config))
      else if negb (use_oauth config) && negb (PyVal.truthy_opt password) then
        (None, None, Some ("Missing " +:+ password_env config))
      else
        let password :=
          if PyVal.truthy_opt password then PyStr.replace_space <$> password
          else password in
        (address, password, None)
  end.

(** *** Opening a session *)

(** [imaplib.IMAP4_SSL(host, port)] *)
Definition imap_open (host : string) (port : Z) : M imap_session :=
  call (Connect Read host port) (imap_connect w host port) ;;
  mret (IMAP4_SSL host port).

(** [mail.authenticate("XOAUTH2", lambda x: auth_string)] *)
Definition mail_authenticate (auth_string : string) : M unit :=
  fun s =>
    call (Authenticate Read auth_string)
      (imap_authenticate w (count (is_auth Read) (trace s)) auth_string) s.

(** [mail.login(user, password)] *)
Definition mail_login (user password : option string) : M unit :=
  call (Login Read user password) (imap_login w user password).

(** [tokens and "refresh_token" in tokens] *)
Definition has_refresh_token (tokens : json) : M bool :=
  if PyVal.truthy tokens then lift (PyVal.contains "refresh_token" tokens)
  else mret false.

(** Returns the pair [(mail, error)]. *)
Definition connect_imap (account : string)
  : M (option imap_session * option error_record) :=
  match SERVERS !! account with
  | None =>
      mret (None, Some (failure ("IMAP not configured for " +:+ account)))
  | Some config =>
    if negb (PyStr.truthy (imap config)) then
      mret (None, Some (failure ("IMAP not configured for " +:+ account)))
    else
      let '(address, password, error) := get_credentials account in
      if PyVal.truthy_opt error then
        mret (None, Some (failure (default "" error)))
      else
        try_except
          (mail ← imap_open (imap config) (imap_port config) ;
           if use_oauth config then
             (* OAuth authentication for Hotmail *)
             '(access_token, token_error) ← get_valid_access_token ;
             if PyVal.truthy_opt token_error then
               mret (None, Some (failure (default "" token_error)))
             else
               let auth_string :=
                 generate_oauth2_string (PyVal.str_opt address)
                   (PyVal.str access_token) false in
               returned ←
                 try_except
                   (mail_authenticate auth_string ;; mret None)
                   (fun e =>
                      match e with
                      | IMAP4_error _ =>
                          (* Token might be expired, try to refresh *)
                          Some (
                            tokens ← load_tokens ;
                            has ← has_refresh_token tokens ;
                            if (has : bool) then
                              refresh_token ← lift (PyVal.getitem "refresh_token" tokens) ;
                              '(new_tokens, refresh_error) ← refresh_access_token refresh_token ;
                              if PyVal.truthy_opt refresh_error then
                                mret (Some (None, Some (failure
                                  ("Token refresh failed: " +:+ PyVal.str_opt refresh_error))))
                              else
                                access_token ← lift (PyVal.getitem "access_token" new_tokens) ;
                                let auth_string :=
                                  generate_oauth2_string (PyVal.str_opt address)
                                    (PyVal.str access_token) false in
                                mail_authenticate auth_string ;;
                                mret None
                            else
                              mret (Some (None, Some (failure
                                ("OAuth failed and no refresh token: " +:+ str_exn e)))))
                      | _ => None
                      end) ;
               match returned with
               | Some r => mret r
               | None => mret (Some mail, None)
               end
           else
             (* Basic authentication *)
             let special :=
               environ_get_default (default "" (imap_login_env config)) "" in
             let imap_login :=
               if PyStr.truthy special then Some special else address in
             mail_login imap_login password ;;
             mret (Some mail, None))
          (fun e =>
             match e with
             | IMAP4_error _ =>
                 Some (mret (None, Some (failure
                   ("Authentication failed: " +:+ str_exn e))))
             | _ =>
                 Some (mret (None, Some (failure
                   ("Connection failed: " +:+ str_exn e))))
             end)
  end.

(** [smtplib.SMTP(host, port)] and [smtplib.SMTP_SSL(host, port, context)] *)
Definition smtp_open (ssl : bool) (host : string) (port : Z) : M unit :=
  call (Connect Send host port) (smtp_connect w ssl host port).

Definition server_ehlo (n : nat) : M unit := call Ehlo (smtp_ehlo w n).

Definition server_starttls : M unit := call StartTLS (smtp_starttls w).

(** [server.auth("XOAUTH2", xoauth2_handler, initial_response_ok=True)];
    the handler reads [auth_string] when it is called. *)
Definition server_auth (auth_string : string) : M unit :=
  fun s =>
    call (Authenticate Send auth_string)
      (smtp_auth w (count (is_auth Send) (trace s)) auth_string) s.

Definition server_login (user password : option string) : M unit :=
  call (Login Send user password) (smtp_login w user password).

Definition server_send_message : M unit :=
  call SendMessage (smtp_send_message w).

(** [send_email(account, to_addr, subject, body)].  Building the MIME
    message and the TLS context has no part in authentication and is left
    out; leaving a [with] block closes the connection silently. *)
Definition send_email (account to_addr subject body : string)
  : M send_result :=
  match SERVERS !! account with
  | None =>
      mret (SendFailure (failure ("SMTP not configured for " +:+ account)))
  | Some config =>
    if negb (PyStr.truthy (smtp config)) then
      mret (SendFailure (failure ("SMTP not configured for " +:+ account)))
    else
      let '(from_addr, password, error) := get_credentials account in
      if PyVal.truthy_opt error then
        mret (SendFailure (failure (default "" error)))
      else
        try_except
          (returned ←
             (if use_oauth config then
                (* OAuth authentication for Hotmail *)
                '(access_token, token_error) ← get_valid_access_token ;
                if PyVal.truthy_opt token_error then
                  mret (Some (SendFailure (failure (default "" token_error))))
                else
                  smtp_open false (smtp config) (smtp_port config) ;;
                  server_ehlo 0 ;;
                  server_starttls ;;
                  server_ehlo 1 ;;
                  (* XOAUTH2 authentication *)
                  let auth_string :=
                    generate_oauth2_string (PyVal.str_opt from_addr)
                      (PyVal.str access_token) false in
                  returned ←
                    try_except
                      (server_auth auth_string ;; mret None)
                      (fun e =>
                         match e with
                         | SMTPAuthenticationError _ =>
                             (* Try refresh *)
                             Some (
                               tokens ← load_tokens ;
                               has ← has_refresh_token tokens ;
                               if (has : bool) then
                                 refresh_token ← lift (PyVal.getitem "refresh_token" tokens) ;
                                 '(new_tokens, refresh_error) ← refresh_access_token refresh_token ;
                                 if PyVal.truthy_opt refresh_error then
                                   mret (Some (SendFailure (failure
                                     ("Token refresh failed: " +:+ PyVal.str_opt refresh_error))))
                                 else
                                   access_token ← lift (PyVal.getitem "access_token" new_tokens) ;
                                   let auth_string :=
                                     generate_oauth2_string (PyVal.str_opt from_addr)
                                       (PyVal.str access_token) false in
                                   server_auth auth_string ;;
                                   mret None
                               else
                                 raise e)
                         | _ => None
                         end) ;
                  match returned with
                  | Some r => mret (Some r)
                  | None => server_send_message ;; mret None
                  end
              else if use_ssl_smtp config then
                smtp_open true (smtp config) (smtp_port config) ;;
                server_login from_addr password ;;
                server_send_message ;;
                mret None
              else
                smtp_open false (smtp config) (smtp_port config) ;;
                server_starttls ;;
                server_login from_addr password ;;
                server_send_message ;;
                mret None) ;
           match returned with
           | Some r => mret r
           | None =>
               mret (SendSuccess
                 ("Email sent successfully from " +:+ PyVal.str_opt from_addr
                    +:+ " to " +:+ to_addr)
                 (PyVal.str_opt from_addr) to_addr subject account)
           end)
          (fun e =>
             match e with
             | SMTPAuthenticationError _ =>
                 Some (mret (SendFailure (failure
                   ("Authentication failed: " +:+ str_exn e))))
             | SMTPException _ =>
                 Some (mret (SendFailure (failure
                   ("SMTP error: " +:+ str_exn e))))
             | _ =>
                 Some (mret (SendFailure (failure
                   ("Failed to send: " +:+ str_exn e))))
             end)
  end.

(** *** Token status *)

Definition oauth_status : M status_report :=
  tokens ← load_tokens ;
  if negb (PyVal.truthy tokens) then
    mret (NotConfigured "OAuth not configured. Run 'oauth-init' to start.")
  else
    saved_at ← lift (PyVal.get "saved_at" (JStr "unknown") tokens) ;
    has ← lift (PyVal.contains "refresh_token" tokens) ;
    mret (Configured saved_at has TOKEN_FILE).

End Program.

(** ** The session factory as one operation

    [open_session r account] is [connect_imap] for the read role and
    [send_email] for the send role, keeping of the result only whether the
    operation failed and with which error record. *)

Definition open_session (w : world) (r : role)
    (account to_addr subject body : string) : M (option error_record) :=
  match r with
  | Read =>
      '(_, err) ← connect_imap w account ;
      mret err
  | Send =>
      res ← send_email w account to_addr subject body ;
      mret (match res with
            | SendSuccess _ _ _ _ _ => None
            | SendFailure e => Some e
            end)
  end.

(** The server's answer to the n-th bearer authentication of a session. *)
Definition auth_reply (w : world) (r : role) (n : nat) (auth_string : string)
  : option exn :=
  match r with
  | Read => imap_authenticate w n auth_string
  | Send => smtp_auth w n auth_string
  end.

(** The exception class each opener treats as "the token was rejected":
    [imaplib.IMAP4.error] on the read path, [smtplib.SMTPAuthenticationError]
    on the send path. *)
Definition is_auth_failure (r : role) (e : exn) : bool :=
  match r, e with
  | Read, IMAP4_error _ => true
  | Send, SMTPAuthenticationError _ => true
  | _, _ => false
  end.



(** What [connect_imap] promises about its pair: a session and no error, or
    no session and an error record that says [success: False] and carries a
    message. *)
Definition exactly_one (r : option imap_session * option error_record) : Prop :=
  (exists mail, r = (Some mail, None)) \/
  (exists e, r = (None, Some e) /\ success e = false /\ error e <> "").

(** ** Weakest preconditions for the monad *)

Definition wp {A} (m : M A) (Q : outcome A -> state -> Prop) (s : state) : Prop :=
  Q (m s).1 (m s).2.

(** The postcondition of [m] in [m ≫= k]. *)
Definition after {A B} (k : A -> M B) (Q : outcome B -> state -> Prop)
  : outcome A -> state -> Prop :=
  fun o s =>
    match o with
    | Returns a => wp (k a) Q s
    | Raises e => Q (Raises e) s
    end.

(** The postcondition of [body] in [try_except body h]. *)
Definition handled {A} (h : exn -> option (M A)) (Q : outcome A -> state -> Prop)
  : outcome A -> state -> Prop :=
  fun o s =>
    match o with
    | Returns a => Q (Returns a) s
    | Raises e =>
        match h e with
        | Some m => wp m Q s
        | None => Q (Raises e) s
        end
    end.

(** The state after one more external call. *)
Definition log (e : event) (s : state) : state :=
  {| token_file := token_file s; trace := trace s ++ [e] |}.

(** ** What the claims say of a run

    Each is a postcondition: a statement about the outcome [o] and the final
    state [s] of an operation started in [initial f]. *)

(** [connect_imap] returns, and its pair is well formed. *)
Definition returns_exactly_one
    (o : outcome (option imap_session * option error_record)) (s : state)
  : Prop :=
  exists r, o = Returns r /\ exactly_one r.

(** If a first bearer authentication was made and the server accepted it,
    it was the only one, no token request was sent, and the token file was
    neither written nor changed. *)
Definition quiet_after_success (w : world) (r : role) (f : file_state)
    (o : outcome (option error_record)) (s : state) : Prop :=
  forall s1 rest,
    auth_strings r (trace s) = s1 :: rest ->
    auth_reply w r 0 s1 = None ->
    rest = []
    /\ token_requests (trace s) = []
    /\ count is_file_write (trace s) = 0
    /\ token_file s = f.




(** ** Sample data *)

Module Sample.

Definition noon : datetime :=
  {| year := 2025; month := 3; day := 9;
     hour := 12; minute := 0; second := 7; microsecond := 250 |}.

Definition stored : gmap string jval :=
  <["access_token" := JStr "A1"]> (<["refresh_token" := JStr "R1"]> ∅).


Definition refreshed : gmap string jval :=
  <["access_token" := JStr "A2"]> (<["refresh_token" := JStr "R2"]> ∅).

Definition access_only : gmap string jval :=
  <["access_token" := JStr "A1"]> (<["token_type" := JStr "Bearer"]> ∅).

Definition settings : gmap string string :=
  <["HOTMAIL_ADDRESS" := "me@hotmail.fr"]>
    (<["AZURE_CLIENT_ID" := "client-id"]>
      (<["GMAIL_ADDRESS" := "me@gmail.com"]>
        (<["GMAIL_APP_PASSWORD" := "abcd efgh ijkl mnop"]> ∅))).


Definition first_only (e : exn) (n : nat) : option exn :=
  match n with
  | O => Some e
  | S _ => None
  end.

(** A world with the given environment and token endpoint, and mail
    servers whose answer to a bearer authentication depends on how many
    came before; everything else succeeds. *)
Definition make (env : gmap string string)
    (endpoint : token_request -> http_reply)
    (read_reply send_reply : nat -> option exn) : world := {|
  environ := env;
  ac_creteil_imap_port := 993;
  ac_creteil_smtp_port := 465;
  now := fun _ => noon;
  makedirs_fault := None;
  open_write_fault := None;
  token_endpoint := endpoint;
  imap_connect := fun _ _ => None;
  imap_authenticate := fun n _ => read_reply n;
  imap_login := fun _ _ => None;
  smtp_connect := fun _ _ _ => None;
  smtp_ehlo := fun _ => None;
  smtp_starttls := None;
  smtp_auth := fun n _ => send_reply n;
  smtp_login := fun _ _ => None;
  smtp_send_message := None
|}.

Definition rejected_read : exn := IMAP4_error "AUTHENTICATE failed".
Definition rejected_send : exn :=
  SMTPAuthenticationError "(535, b'5.7.3 Authentication unsuccessful')".

(** Everything is configured, the servers reject the first bearer
    authentication and accept the next, and the token endpoint answers
    with [refreshed]. *)
Definition expiring : world :=
  make settings (fun _ => Responds (Parses (JDict refreshed)))
    (first_only rejected_read) (first_only rejected_send).

(** The servers accept the first authentication. *)
Definition accepting : world :=
  make settings (fun _ => Responds (Parses (JDict refreshed)))
    (fun _ => None) (fun _ => None).


(** The token endpoint grants an access token and no refresh token. *)
Definition granting_access_only : world :=
  make settings (fun _ => Responds (Parses (JDict access_only)))
    (fun _ => None) (fun _ => None).



(** Three runs: a send with servers that accept the stored token; a read
    with an expired token and a refresh token to renew it; a read with an
    expired token and nothing to renew it with. *)
Definition accepted_send : outcome (option error_record) * state :=
  open_session accepting Send "hotmail" "a@b.c" "subject" "body"
    (initial (Holds (Parses (JDict stored)))).



End Sample.


(** ** More observers of a run *)

(** Events that put credentials on the wire. *)
Definition is_login (e : event) : bool :=
  match e with
  | Login _ _ _ => true
  | _ => false
  end.

Definition is_bearer (e : event) : bool :=
  match e with
  | Authenticate _ _ => true
  | _ => false
  end.

Definition is_network (e : event) : bool :=
  match e with
  | FileWrite _ => false
  | _ => true
  end.

(** The basic logins of a run, in order: role, user, password. *)
Fixpoint logins (t : list event) : list (role * option string * option string) :=
  match t with
  | [] => []
  | Login r user password :: rest => (r, user, password) :: logins rest
  | _ :: rest => logins rest
  end.

(** No login and no bearer authentication happens on a connection before
    [StartTLS] has succeeded on it ([secured] says whether it has). *)
Fixpoint tls_before_credentials (secured : bool) (t : list event) : bool :=
  match t with
  | [] => true
  | StartTLS :: rest => tls_before_credentials true rest
  | Login _ _ _ :: rest => secured && tls_before_credentials secured rest
  | Authenticate _ _ :: rest => secured && tls_before_credentials secured rest
  | _ :: rest => tls_before_credentials secured rest
  end.

(** What [send_email] promises about its dict: a success, or a failure that
    says [success: False] and carries a message. *)
Definition send_result_ok (r : send_result) : Prop :=
  (exists message from_addr to_addr subject account,
      r = SendSuccess message from_addr to_addr subject account)
  \/ (exists e, r = SendFailure e /\ success e = false /\ error e <> "").

(** ** Text helpers of the listing commands

    [clean_text_for_preview] and the preview and window expressions of
    [list_emails] and [search_emails] work on characters, and [str.split()]
    splits at every Unicode white space: a text is here the list of its
    code points. *)

Module Text.

(** [c.isspace()] for one character: the white space of [str.split()]. *)
Definition isspace (c : N) : bool :=
  ((9 <=? c) && (c <=? 13)           (* \t \n \v \f \r *)
   || (28 <=? c) && (c <=? 32)       (* FS GS RS US and the space *)
   || (c =? 133) || (c =? 160)       (* U+0085, U+00A0 *)
   || (c =? 5760)                    (* U+1680 *)
   || (8192 <=? c) && (c <=? 8202)   (* U+2000 .. U+200A *)
   || (c =? 8232) || (c =? 8233)     (* U+2028, U+2029 *)
   || (c =? 8239) || (c =? 8287)     (* U+202F, U+205F *)
   || (c =? 12288))%N.               (* U+3000 *)

Definition SPACE : N := 32.
Definition NEWLINE : N := 10.
Definition RETURN : N := 13.
Definition BACKSLASH : N := 92.
Definition LOWER_N : N := 110.
Definition LOWER_R : N := 114.
Definition DOT : N := 46.

(** [s.replace(old, " ")] for a one-character [old]. *)
Definition replace_char (old : N) (s : list N) : list N :=
  map (fun c => if (c =? old)%N then SPACE else c) s.

(** [s.replace(old, " ")] for the two-character [old] made of [a] then
    [b]: occurrences are replaced from the left and do not overlap. *)
Fixpoint replace_pair (a b : N) (s : list N) : list N :=
  match s with
  | x :: (y :: rest) as tl =>
      if ((x =? a) && (y =? b))%N then SPACE :: replace_pair a b rest
      else x :: replace_pair a b tl
  | _ => s
  end.

(** [s.split()]: the maximal runs of characters that are not white space;
    [word] is the run being read. *)
Fixpoint split_from (word : list N) (s : list N) : list (list N) :=
  match s with
  | [] =>
      match word with
      | [] => []
      | _ :: _ => [word]
      end
  | c :: rest =>
      if isspace c then
        match word with
        | [] => split_from [] rest
        | _ :: _ => word :: split_from [] rest
        end
      else split_from (word ++ [c]) rest
  end.

Definition split (s : list N) : list (list N) := split_from [] s.

(** [" ".join(words)] *)
Fixpoint join (words : list (list N)) : list N :=
  match words with
  | [] => []
  | [w] => w
  | w :: rest => w ++ SPACE :: join rest
  end.

Definition clean_text_for_preview (text : list N) : list N :=
  (* Replace literal backslash-n and backslash-r with spaces *)
  let text := replace_pair BACKSLASH LOWER_N text in
  let text := replace_pair BACKSLASH LOWER_R text in
  (* Replace actual newlines and carriage returns *)
  let text := replace_char NEWLINE text in
  let text := replace_char RETURN text in
  (* Collapse multiple spaces *)
  join (split text).

(** [clean_text_for_preview(body)[:150] + "..." if len(body) > 150
     else clean_text_for_preview(body)] *)
Definition preview (body : list N) : list N :=
  if (150 <? length body)%nat then
    take 150 (clean_text_for_preview body) ++ [DOT; DOT; DOT]
  else clean_text_for_preview body.

(** Does [a] directly followed by [b] occur in [s]? *)
Fixpoint has_pair (a b : N) (s : list N) : bool :=
  match s with
  | x :: (y :: _) as tl => ((x =? a) && (y =? b))%N || has_pair a b tl
  | _ => false
  end.

(** A single line of words: no white space but single spaces, and those
    only between two words. *)
Fixpoint single_spaced (s : list N) : bool :=
  match s with
  | [] => true
  | x :: tl =>
      (if isspace x
       then (x =? SPACE)%N
            && match tl with
               | [] => false
               | y :: _ => negb (isspace y)
               end
       else true)
      && single_spaced tl
  end.

Definition tidy (s : list N) : bool :=
  single_spaced s
  && match s with
     | [] => true
     | x :: _ => negb (isspace x)
     end.

(** A word of [split()]: not empty, and free of white space. *)
Definition word (w : list N) : Prop :=
  w <> [] /\ Forall (fun c => isspace c = false) w.

(** Every white-space character left is a space. *)
Definition one_line (s : list N) : Prop :=
  Forall (fun c => isspace c = true -> c = SPACE) s.

End Text.

(** ** The window of message ids in [list_emails] and [search_emails] *)

(** [l[start:]] *)
Definition slice_from {A} (start : Z) (l : list A) : list A :=
  let n := Z.of_nat (length l) in
  let start :=
    if (start <? 0)%Z then Z.max 0 (start + n) else Z.min start n in
  drop (Z.to_nat start) l.

(** [email_ids = email_ids[-limit:] if len(email_ids) > limit else email_ids]
    then [email_ids.reverse()] *)
Definition email_ids_window {A} (limit : Z) (email_ids : list A) : list A :=
  let email_ids :=
    if (limit <? Z.of_nat (length email_ids))%Z
    then slice_from (- limit) email_ids
    else email_ids in
  reverse email_ids.

(** ** Sample data for the academy account *)

Module SampleAcademy.

Definition settings : gmap string string :=
  <["AC_CRETEIL_EMAIL" := "prenom.nom@ac-creteil.fr"]>
    (<["AC_CRETEIL_PASSWORD" := "s3cret"]>
      (<["AC_CRETEIL_IMAP_LOGIN" := "pnom"]> ∅)).


End SampleAcademy.

(** ** More postconditions *)

(** [send_email] returns, and its dict is well formed. *)
Definition returns_send_result (o : outcome send_result) (s : state) : Prop :=
  exists r, o = Returns r /\ send_result_ok r.

(** For an account in static-secret mode the run stays clear of OAuth: no
    bearer authentication, no token request, no write to the token file,
    which holds what it held; and at most one login is tried. *)
Definition static_session (w : world) (account : string) (f : file_state)
    (o : outcome (option error_record)) (s : state) : Prop :=
  forall config,
    SERVERS w !! account = Some config ->
    use_oauth config = false ->
    count is_bearer (trace s) = 0
    /\ token_requests (trace s) = []
    /\ count is_file_write (trace s) = 0
    /\ token_file s = f
    /\ count is_login (trace s) <= 1.

(** On a connection opened in the clear (every OAuth account, and a
    static one without [use_ssl_smtp]) no credentials are sent before
    [starttls()] has succeeded. *)
Definition tls_first (w : world) (account : string)
    (o : outcome send_result) (s : state) : Prop :=
  forall config,
    SERVERS w !! account = Some config ->
    use_oauth config = true \/ use_ssl_smtp config = false ->
    tls_before_credentials false (trace s) = true.




(** Every bearer authentication of the run is for the Hotmail account, in
    the name of its configured address, and the first one carries the access
    token stored in the dict the token file held at the start. *)
Definition bearer_is_stored_token (w : world) (r : role) (account : string)
    (f : file_state) (o : outcome (option error_record)) (s : state) : Prop :=
  forall s1 rest,
    auth_strings r (trace s) = s1 :: rest ->
    account = "hotmail"
    /\ exists address (d : gmap string jval) a,
         environ w !! "HOTMAIL_ADDRESS" = Some address
         /\ f = Holds (Parses (JDict d))
         /\ d !! "access_token" = Some a
         /\ s1 = generate_oauth2_string address (PyVal.str a) false.




(** ** Handing over the message, handing out a session *)

Definition is_send_message (e : event) : bool :=
  match e with
  | SendMessage => true
  | _ => false
  end.

(** The message is handed to the server at most once; and a success is
    reported only when the server accepted it, as the last step of the
    run, with the details of the call. *)
Definition delivered_once (w : world) (account to_addr subject : string)
    (o : outcome send_result) (s : state) : Prop :=
  count is_send_message (trace s) <= 1
  /\ forall message from_addr to_addr' subject' account',
       o = Returns (SendSuccess message from_addr to_addr' subject' account') ->
       smtp_send_message w = None
       /\ count is_send_message (trace s) = 1
       /\ last (trace s) = Some SendMessage
       /\ (exists config,
              SERVERS w !! account = Some config
              /\ environ w !! email_env config = Some from_addr)
       /\ to_addr' = to_addr /\ subject' = subject /\ account' = account
       /\ message
          = "Email sent successfully from " +:+ from_addr +:+ " to " +:+ to_addr.

(** The last step of the run is a read-side login or bearer
    authentication that the server accepted. *)
Definition ends_authenticated (w : world) (t : list event) : Prop :=
  match last t with
  | Some (Authenticate Read auth_string) =>
      imap_authenticate w (count (is_auth Read) t - 1) auth_string = None
  | Some (Login Read user password) => imap_login w user password = None
  | _ => False
  end.

(** A session is handed out only with no error beside it, for the
    configured host and port, and only once the server has accepted the
    credentials. *)
Definition session_is_authenticated (w : world) (account : string)
    (o : outcome (option imap_session * option error_record)) (s : state)
  : Prop :=
  forall mail err,
    o = Returns (Some mail, err) ->
    err = None
    /\ (exists config,
           SERVERS w !! account = Some config
           /\ mail = IMAP4_SSL (imap config) (imap_port config))
    /\ ends_authenticated w (trace s).

(** ** The one connection of a session *)

Definition is_connect (e : event) : bool :=
  match e with
  | Connect _ _ _ => true
  | _ => false
  end.

(** The server a role talks to. *)
Definition host_of (r : role) (config : server_config) : string :=
  match r with
  | Read => imap config
  | Send => smtp config
  end.

Definition port_of (r : role) (config : server_config) : Z :=
  match r with
  | Read => imap_port config
  | Send => smtp_port config
  end.

(** Nothing happens before the connection is opened, it is opened to the
    host and port configured for the role, and it is the only one. *)
Definition connects_once (w : world) (r : role) (account : string)
    (o : outcome (option error_record)) (s : state) : Prop :=
  trace s = []
  \/ exists config rest,
       SERVERS w !! account = Some config
       /\ PyStr.truthy (host_of r config) = true
       /\ trace s = Connect r (host_of r config) (port_of r config) :: rest
       /\ count is_connect rest = 0.

(** * Properties *)

(** ** Strings, optional strings and the registry *)

Lemma truthy_opt_true o :
  PyVal.truthy_opt o = true <-> exists s, o = Some s /\ s <> "".
Proof.
  split.
  - destruct o as [[|c s]|]; simpl; try discriminate.
    intros _. eexists. split; [reflexivity | discriminate].
  - intros (s & -> & Hs). destruct s; [congruence | reflexivity].
Qed.

Lemma truthy_opt_false o :
  PyVal.truthy_opt o = false <-> o = None \/ o = Some "".
Proof.
  split.
  - destruct o as [[|c s]|]; simpl; try discriminate; auto.
  - intros [-> | ->]; reflexivity.
Qed.

Lemma append_nonempty_r a b : b <> "" -> a +:+ b <> "".
Proof. destruct a; simpl; [auto | discriminate]. Qed.




Lemma SERVERS_inv w account config :
  SERVERS w !! account = Some config ->
  (account = "gmail" /\ config = gmail_config) \/
  (account = "ac-creteil" /\ config = ac_creteil_config w) \/
  (account = "hotmail" /\ config = hotmail_config).
Proof.
  unfold SERVERS. intros H.
  destruct (decide (account = "gmail")) as [->|N1].
  { rewrite lookup_insert_eq in H. left. split; congruence. }
  rewrite lookup_insert_ne in H by congruence.
  destruct (decide (account = "ac-creteil")) as [->|N2].
  { rewrite lookup_insert_eq in H. right; left. split; congruence. }
  rewrite lookup_insert_ne in H by congruence.
  destruct (decide (account = "hotmail")) as [->|N3].
  { rewrite lookup_insert_eq in H. right; right. split; congruence. }
  rewrite lookup_insert_ne in H by congruence.
  rewrite lookup_empty in H. discriminate.
Qed.

(** Only Hotmail is an OAuth account. *)
Lemma oauth_account_is_hotmail w account config :
  SERVERS w !! account = Some config -> use_oauth config = true ->
  account = "hotmail" /\ config = hotmail_config.
Proof.
  intros H Ho. apply SERVERS_inv in H as [[-> ->] | [[-> ->] | [-> ->]]];
    try discriminate Ho. auto.
Qed.





(** ** base64 on the RFC 4648 test vectors *)

Example b64encode_rfc4648 :
  map Base64.b64encode ["" ; "f"; "fo"; "foo"; "foob"; "fooba"; "foobar"]
  = [""; "Zg=="; "Zm8="; "Zm9v"; "Zm9vYg=="; "Zm9vYmE="; "Zm9vYmFy"].
Proof. reflexivity. Qed.

(** ** generate_oauth2_string *)

(** C6. For every username and access token the raw bearer assertion is
    [user=<username>], the byte 0x01, [auth=Bearer <access_token>], and two
    bytes 0x01; the raw form is returned as built, and the encoded form is
    the base64 encoding of the raw form. *)
Theorem generate_oauth2_string_format (username access_token : string) :
  generate_oauth2_string username access_token false
  = "user=" +:+ username +:+ String (ascii_of_N 1)
      ("auth=Bearer " +:+ access_token +:+
         String (ascii_of_N 1) (String (ascii_of_N 1) ""))
  /\ generate_oauth2_string username access_token true
     = Base64.b64encode (generate_oauth2_string username access_token false).
Proof. split; reflexivity. Qed.

Example generate_oauth2_string_sample :
  generate_oauth2_string "someuser@example.com"
    "ya29.vF9dft4qmTc2Nvb3RlckBhdHRhdmlzdGEuY29tCg" true
  = "dXNlcj1zb21ldXNlckBleGFtcGxlLmNvbQFhdXRoPUJlYXJlciB5YTI5LnZGOWRmdDRxbVRjMk52YjNSbGNrQmhkSFJoZG1semRHRXVZMjl0Q2cBAQ==".
Proof. reflexivity. Qed.

(** ** get_credentials *)




(** ** Unknown accounts *)




(** ** The token store *)

Lemma load_tokens_run w st :
  load_tokens w st
  = (match token_file st with
     | Missing => Returns PyNone
     | Unreadable msg => Raises (OSError msg)
     | Undecodable msg => Raises (UnicodeDecodeError msg)
     | Holds (Malformed _) => Returns PyNone
     | Holds (Parses v) => Returns v
     end, st).
Proof.
  unfold load_tokens, try_except, json_load_file.
  destruct (token_file st) as [| | |[]]; reflexivity.
Qed.



Lemma save_tokens_run w tokens st :
  save_tokens w tokens st
  = match makedirs_fault w with
    | Some msg => (Raises (OSError msg), st)
    | None =>
        match PyVal.setitem "saved_at"
                (JStr (isoformat (now w (length (trace st))))) tokens with
        | Raises e => (Raises e, st)
        | Returns stamped =>
            match open_write_fault w with
            | Some msg => (Raises (OSError msg), st)
            | None => (Returns stamped, log (FileWrite stamped)
                         {| token_file := Holds (Parses stamped);
                            trace := trace st |})
            end
        end
    end.
Proof.
  unfold save_tokens, makedirs, now_isoformat, json_dump_file, lift, raise,
    mbind, M_bind, bind, mret, M_ret, ret.
  destruct (makedirs_fault w); [reflexivity|]. cbn.
  destruct (PyVal.setitem _ _ tokens); [|reflexivity].
  destruct (open_write_fault w); reflexivity.
Qed.

(** C5. When the directory can be made and the file opened for writing,
    [save_tokens] returns, and [load_tokens] right after it returns a dict
    whose [access_token], [refresh_token] and [token_type] entries are those
    of the dict that was saved. *)
Theorem save_then_load w (d : gmap string jval) st :
  makedirs_fault w = None ->
  open_write_fault w = None ->
  exists stamped st' (loaded : gmap string jval),
    save_tokens w (JDict d) st = (Returns stamped, st')
    /\ load_tokens w st' = (Returns (JDict loaded), st')
    /\ loaded !! "access_token" = d !! "access_token"
    /\ loaded !! "refresh_token" = d !! "refresh_token"
    /\ loaded !! "token_type" = d !! "token_type".
Proof.
  intros Hm Ho. rewrite save_tokens_run, Hm, Ho. cbn [PyVal.setitem].
  eexists _, _, _. split; [reflexivity|].
  split; [rewrite load_tokens_run; reflexivity|].
  repeat split; apply lookup_insert_ne; discriminate.
Qed.

Lemma save_then_load_witness :
  exists stamped st' (loaded : gmap string jval),
    save_tokens Sample.accepting (JDict Sample.stored) (initial Missing)
      = (Returns stamped, st')
    /\ load_tokens Sample.accepting st' = (Returns (JDict loaded), st')
    /\ loaded !! "access_token" = Sample.stored !! "access_token"
    /\ loaded !! "refresh_token" = Sample.stored !! "refresh_token"
    /\ loaded !! "token_type" = Sample.stored !! "token_type".
Proof.
  apply (save_then_load Sample.accepting Sample.stored (initial Missing));
    reflexivity.
Defined.

(** A failed save leaves the token file as it was. *)
Lemma save_tokens_failure_keeps_file w tokens st e st' :
  save_tokens w tokens st = (Raises e, st') -> st' = st.
Proof.
  rewrite save_tokens_run.
  destruct (makedirs_fault w); [congruence|].
  destruct (PyVal.setitem _ _ tokens); [|congruence].
  destruct (open_write_fault w); congruence.
Qed.

(** ** Token status *)

Lemma isoformat_nonempty t : isoformat t <> "".
Proof. unfold isoformat. apply append_nonempty_r. discriminate. Qed.

Lemma oauth_status_run w st :
  oauth_status w st
  = (match token_file st with
     | Missing | Holds (Malformed _) =>
         Returns (NotConfigured "OAuth not configured. Run 'oauth-init' to start.")
     | Unreadable msg => Raises (OSError msg)
     | Undecodable msg => Raises (UnicodeDecodeError msg)
     | Holds (Parses tokens) =>
         if negb (PyVal.truthy tokens) then
           Returns (NotConfigured "OAuth not configured. Run 'oauth-init' to start.")
         else
           match PyVal.get "saved_at" (JStr "unknown") tokens with
           | Raises e => Raises e
           | Returns saved_at =>
               match PyVal.contains "refresh_token" tokens with
               | Raises e => Raises e
               | Returns has => Returns (Configured saved_at has (TOKEN_FILE w))
               end
           end
     end, st).
Proof.
  unfold oauth_status, mbind, M_bind, bind. rewrite load_tokens_run.
  destruct (token_file st) as [| | |[tokens|]]; try reflexivity.
  destruct (negb (PyVal.truthy tokens)); [reflexivity|].
  unfold lift. destruct (PyVal.get _ _ tokens); [|reflexivity].
  destruct (PyVal.contains _ tokens); reflexivity.
Qed.

Lemma exchange_code_for_tokens_granted w code (d : gmap string jval) st :
  credentials_configured w = true ->
  token_endpoint w (exchange_request w code) = Responds (Parses (JDict d)) ->
  makedirs_fault w = None ->
  open_write_fault w = None ->
  let stamped :=
    JDict (<["saved_at" := JStr (isoformat (now w (S (length (trace st)))))]> d) in
  exchange_code_for_tokens w code st
  = (Returns (stamped, None),
     {| token_file := Holds (Parses stamped);
        trace := trace st ++ [TokenRequest (exchange_request w code);
                              FileWrite stamped] |}).
Proof.
  intros Hc He Hm Ho stamped.
  unfold exchange_code_for_tokens. rewrite Hc. cbn [negb].
  unfold try_except, urlopen_json, emit, mbind, M_bind, bind. rewrite He.
  cbn [mret M_ret ret]. rewrite save_tokens_run, Hm, Ho.
  cbn [PyVal.setitem trace token_file log].
  unfold log. cbn [mret M_ret ret trace token_file].
  rewrite length_app, Nat.add_1_r, <- app_assoc. reflexivity.
Qed.

(** C9, as the code has it. With no token file, [oauth_status] reports
    NOT_CONFIGURED. After an authorization-code exchange that the provider
    answers with a dict and that is saved, it reports CONFIGURED with the
    time stamp [save_tokens] wrote, which is not empty, and with
    [has_refresh_token] true exactly when the provider's answer holds a
    [refresh_token] entry. *)
Theorem oauth_status_after_exchange w code (d : gmap string jval) f tr :
  credentials_configured w = true ->
  token_endpoint w (exchange_request w code) = Responds (Parses (JDict d)) ->
  makedirs_fault w = None ->
  open_write_fault w = None ->
  oauth_status w {| token_file := Missing; trace := tr |}
    = (Returns (NotConfigured "OAuth not configured. Run 'oauth-init' to start."),
       {| token_file := Missing; trace := tr |})
  /\ exists stamp st',
       exchange_code_for_tokens w code {| token_file := f; trace := tr |}
         = (Returns (JDict (<["saved_at" := JStr stamp]> d), None), st')
       /\ stamp = isoformat (now w (S (length tr)))
       /\ stamp <> ""
       /\ token_file st' = Holds (Parses (JDict (<["saved_at" := JStr stamp]> d)))
       /\ oauth_status w st'
          = (Returns (Configured (JStr stamp)
                        (bool_decide (is_Some (d !! "refresh_token")))
                        (TOKEN_FILE w)), st').
Proof.
  intros Hc He Hm Ho. split; [rewrite oauth_status_run; reflexivity|].
  eexists _, _. split; [apply exchange_code_for_tokens_granted; assumption|].
  cbn [trace token_file].
  split; [reflexivity|]. split; [apply isoformat_nonempty|].
  split; [reflexivity|].
  rewrite oauth_status_run. cbn [token_file PyVal.truthy PyVal.get PyVal.contains].
  rewrite bool_decide_eq_false_2 by apply insert_non_empty.
  cbn [negb]. rewrite lookup_insert_eq, lookup_insert_ne by discriminate.
  cbn [default]. destruct (d !! "refresh_token"); reflexivity.
Qed.

Lemma oauth_status_after_exchange_witness :
  exists stamp st',
    exchange_code_for_tokens Sample.accepting "code" (initial Missing)
      = (Returns (JDict (<["saved_at" := JStr stamp]> Sample.refreshed), None), st')
    /\ stamp = "2025-03-09T12:00:07.000250"
    /\ oauth_status Sample.accepting st'
       = (Returns (Configured (JStr stamp) true
                     "/root/.openclaw/credentials/hotmail_tokens.json"), st').
Proof.
  destruct (oauth_status_after_exchange Sample.accepting "code" Sample.refreshed
              Missing []) as (_ & stamp & st' & E1 & E2 & _ & _ & E3);
    [reflexivity | reflexivity | reflexivity | reflexivity |].
  exists stamp, st'. split; [exact E1|]. split; [exact E2|]. exact E3.
Defined.

(** An exchange the provider answers without a refresh token succeeds and
    is saved, and the status then says [has_refresh_token: False]. *)
Lemma oauth_status_without_refresh_token :
  (exchange_code_for_tokens Sample.granting_access_only "code" (initial Missing)).1
    = Returns (JDict (<["saved_at" := JStr "2025-03-09T12:00:07.000250"]>
                        Sample.access_only), None)
  /\ (oauth_status Sample.granting_access_only
        (exchange_code_for_tokens Sample.granting_access_only "code"
           (initial Missing)).2).1
     = Returns (Configured (JStr "2025-03-09T12:00:07.000250") false
                  "/root/.openclaw/credentials/hotmail_tokens.json").
Proof. split; vm_compute; reflexivity. Qed.

(** ** Rules of the weakest precondition *)

Section WPRules.
Context {A B : Type}.

Lemma wp_eq (m : M A) Q s o s' : m s = (o, s') -> Q o s' -> wp m Q s.
Proof. unfold wp. intros ->. auto. Qed.

Lemma wp_bind (m : M A) (k : A -> M B) Q s :
  wp m (after k Q) s -> wp (m ≫= k) Q s.
Proof.
  unfold wp, after, mbind, M_bind, bind.
  destruct (m s) as [[a|e] s']; auto.
Qed.

Lemma wp_ret (a : A) Q s : Q (Returns a) s -> wp (mret a) Q s.
Proof. auto. Qed.

Lemma wp_raise (e : exn) (Q : outcome A -> state -> Prop) s :
  Q (Raises e) s -> wp (raise e) Q s.
Proof. auto. Qed.

Lemma wp_lift (o : outcome A) Q s : Q o s -> wp (lift o) Q s.
Proof. auto. Qed.

Lemma wp_try (body : M A) h Q s :
  wp body (handled h Q) s -> wp (try_except body h) Q s.
Proof.
  unfold wp, handled, try_except.
  destruct (body s) as [[a|e] s']; simpl; auto.
  destruct (h e); auto.
Qed.

End WPRules.

Lemma wp_emit ev Q s : Q (Returns tt) (log ev s) -> wp (emit ev) Q s.
Proof. auto. Qed.

Lemma wp_call ev reply Q s :
  match reply with
  | None => Q (Returns tt) (log ev s)
  | Some e => Q (Raises e) (log ev s)
  end ->
  wp (call ev reply) Q s.
Proof. unfold wp, call. destruct reply; auto. Qed.

Lemma wp_mail_authenticate w auth_string Q s :
  match imap_authenticate w (count (is_auth Read) (trace s)) auth_string with
  | None => Q (Returns tt) (log (Authenticate Read auth_string) s)
  | Some e => Q (Raises e) (log (Authenticate Read auth_string) s)
  end ->
  wp (mail_authenticate w auth_string) Q s.
Proof. unfold mail_authenticate. apply wp_call. Qed.

Lemma wp_server_auth w auth_string Q s :
  match smtp_auth w (count (is_auth Send) (trace s)) auth_string with
  | None => Q (Returns tt) (log (Authenticate Send auth_string) s)
  | Some e => Q (Raises e) (log (Authenticate Send auth_string) s)
  end ->
  wp (server_auth w auth_string) Q s.
Proof. unfold server_auth. apply wp_call. Qed.

Lemma wp_load_tokens w Q s :
  Q (match token_file s with
     | Missing => Returns PyNone
     | Unreadable msg => Raises (OSError msg)
     | Undecodable msg => Raises (UnicodeDecodeError msg)
     | Holds (Malformed _) => Returns PyNone
     | Holds (Parses v) => Returns v
     end) s ->
  wp (load_tokens w) Q s.
Proof. apply wp_eq, load_tokens_run. Qed.

Lemma wp_urlopen_json w req Q s :
  match token_endpoint w req with
  | Fails e => Q (Raises e) (log (TokenRequest req) s)
  | Responds (Malformed msg) =>
      Q (Raises (JSONDecodeError msg)) (log (TokenRequest req) s)
  | Responds (Parses v) => Q (Returns v) (log (TokenRequest req) s)
  end ->
  wp (urlopen_json w req) Q s.
Proof.
  unfold wp, urlopen_json, emit, mbind, M_bind, bind.
  destruct (token_endpoint w req) as [[v|msg]|e]; auto.
Qed.

Lemma wp_save_tokens w tokens Q s :
  match makedirs_fault w with
  | Some msg => Q (Raises (OSError msg)) s
  | None =>
      match PyVal.setitem "saved_at"
              (JStr (isoformat (now w (length (trace s))))) tokens with
      | Raises e => Q (Raises e) s
      | Returns stamped =>
          match open_write_fault w with
          | Some msg => Q (Raises (OSError msg)) s
          | None =>
              Q (Returns stamped)
                (log (FileWrite stamped)
                   {| token_file := Holds (Parses stamped); trace := trace s |})
          end
      end
  end ->
  wp (save_tokens w tokens) Q s.
Proof.
  unfold wp. rewrite save_tokens_run.
  destruct (makedirs_fault w); [auto|].
  destruct (PyVal.setitem _ _ tokens); [|auto].
  destruct (open_write_fault w); auto.
Qed.

(** *** Stepping through a program *)

(** Bring the state and the counters of the goal to normal form. *)
Ltac wp_norm :=
  cbv beta iota;
  cbn [log trace token_file initial app count is_auth length fst snd
       PyVal.truthy_opt PyStr.truthy String.append negb
       PyVal.truthy PyVal.truthy_scalar PyVal.contains PyVal.getitem
       PyVal.setitem PyVal.get PyNone].

(** Decide a test from a hypothesis when there is one, else split on it. *)
Ltac wp_case x :=
  first
    [ match goal with H : x = _ |- _ => rewrite H end
    | lazymatch x with
      | <[_ := _]> _ !! _ => rewrite lookup_insert_ne by discriminate
      | PyStr.truthy (String _ _ +:+ _) => change x with true
      end
    | is_var x; destruct x
    | destruct x eqn:? ].

(** Split on the innermost scrutinee of a stuck match. *)
Ltac wp_scrutinee t :=
  lazymatch t with
  | context [match ?x with _ => _ end] => first [ wp_scrutinee x | wp_case x ]
  end.

Ltac wp_step :=
  wp_norm;
  lazymatch goal with
  | |- wp (mbind _ _) _ _ => apply wp_bind
  | |- wp (mret _) _ _ => apply wp_ret
  | |- wp (ret _) _ _ => apply wp_ret
  | |- wp (raise _) _ _ => apply wp_raise
  | |- wp (lift _) _ _ => apply wp_lift
  | |- wp (try_except _ _) _ _ => apply wp_try
  | |- wp (call _ _) _ _ => apply wp_call
  | |- wp (emit _) _ _ => apply wp_emit
  | |- wp (load_tokens _) _ _ => apply wp_load_tokens
  | |- wp (save_tokens _ _) _ _ => apply wp_save_tokens
  | |- wp (urlopen_json _ _) _ _ => apply wp_urlopen_json
  | |- wp (mail_authenticate _ _) _ _ => apply wp_mail_authenticate
  | |- wp (server_auth _ _) _ _ => apply wp_server_auth
  | |- wp (get_valid_access_token _) _ _ => unfold get_valid_access_token
  | |- wp (has_refresh_token _) _ _ => unfold has_refresh_token
  | |- wp (refresh_access_token _ _) _ _ => unfold refresh_access_token
  | |- wp (exchange_code_for_tokens _ _) _ _ => unfold exchange_code_for_tokens
  | |- wp (imap_open _ _ _) _ _ => unfold imap_open
  | |- wp (mail_login _ _ _) _ _ => unfold mail_login
  | |- wp (smtp_open _ _ _ _) _ _ => unfold smtp_open
  | |- wp (server_ehlo _ _) _ _ => unfold server_ehlo
  | |- wp (server_starttls _) _ _ => unfold server_starttls
  | |- wp (server_login _ _ _) _ _ => unfold server_login
  | |- wp (server_send_message _) _ _ => unfold server_send_message
  | |- wp (if ?b then _ else _) _ _ => wp_case b
  | |- wp (match ?x with _ => _ end) _ _ => wp_case x
  | |- after _ _ (Returns _) _ => unfold after at 1
  | |- after _ _ (Raises _) _ => unfold after at 1
  | |- after _ _ ?o _ => first [ wp_scrutinee o | wp_case o ]
  | |- handled _ _ (Returns _) _ => unfold handled at 1
  | |- handled _ _ (Raises ?e) _ =>
      first [ is_var e; destruct e | unfold handled at 1 ]
  | |- handled _ _ ?o _ => first [ wp_scrutinee o | wp_case o ]
  | |- match ?x with _ => _ end => wp_case x
  end.

Ltac wp_run := repeat wp_step.

(** ** The pair [connect_imap] returns *)

Lemma wp_outcome {A} (m : M A) (Q : outcome A -> state -> Prop) s :
  wp m Q s -> exists o s', m s = (o, s') /\ Q o s'.
Proof. unfold wp. destruct (m s) as [o s']. eauto. Qed.

Lemma connect_imap_wp w account st :
  wp (connect_imap w account) returns_exactly_one st.
Proof.
  unfold connect_imap. wp_run.
  all: unfold returns_exactly_one, exactly_one.
  all: repeat match goal with
         | H : PyVal.truthy_opt _ = true |- _ =>
             apply truthy_opt_true in H as (? & -> & ?)
         end.
  all: eexists; split; [reflexivity|].
  all: first
         [ left; eexists; reflexivity
         | right; eexists; split; [reflexivity|]; split; [reflexivity|];
           first [ discriminate | assumption ] ].
Qed.

(** C10. For every account identifier, environment and token-store state,
    [connect_imap] returns (it never raises) a pair that holds either a
    session and no error, or no session and an error record with
    [success: False] and a non-empty message; never both, never neither. *)
Theorem connect_imap_exactly_one w account st :
  exists r st',
    connect_imap w account st = (Returns r, st')
    /\ ((exists mail, r = (Some mail, None))
        \/ (exists e, r = (None, Some e) /\ success e = false /\ error e <> ""))
    /\ r <> (None, None)
    /\ (forall mail e, r <> (Some mail, Some e)).
Proof.
  destruct (wp_outcome _ _ _ (connect_imap_wp w account st))
    as (o & st' & E & r & -> & H).
  exists r, st'. split; [exact E|]. split; [exact H|].
  destruct H as [[mail ->] | (e & -> & _)]; split; congruence.
Qed.

(** ** Opening a session: what the log of a run shows *)

Ltac trace_norm :=
  cbn [trace token_file log initial app auth_strings token_requests count
       is_auth is_file_write is_token_request auth_reply is_auth_failure] in *.


Lemma open_session_quiet w r account to_addr subject body f :
  wp (open_session w r account to_addr subject body)
    (quiet_after_success w r f) (initial f).
Proof.
  destruct r; unfold open_session, connect_imap, send_email; wp_run.
  all: unfold quiet_after_success; intros s1 rest H1 H2; trace_norm.
  all: try discriminate H1.
  all: try (simplify_eq; fail).
  all: simplify_eq; repeat split; reflexivity.
Qed.

(** C7. For every session open, in either role: if a first bearer
    authentication is made and the server accepts it, no other is made, no
    request goes to the token endpoint (no refresh), and the token file is
    not written and holds what it held. *)
Theorem first_attempt_accepted_is_quiet
    w r account to_addr subject body f o st' s1 rest :
  open_session w r account to_addr subject body (initial f) = (o, st') ->
  auth_strings r (trace st') = s1 :: rest ->
  auth_reply w r 0 s1 = None ->
  rest = []
  /\ token_requests (trace st') = []
  /\ count is_file_write (trace st') = 0
  /\ token_file st' = f.
Proof.
  intros E H1 H2.
  pose proof (open_session_quiet w r account to_addr subject body f) as H.
  unfold wp in H. rewrite E in H. exact (H s1 rest H1 H2).
Qed.

Lemma first_attempt_accepted_is_quiet_witness :
  token_requests
    (trace Sample.accepted_send.2) = []
  /\ count is_file_write
       (trace Sample.accepted_send.2) = 0
  /\ token_file
       Sample.accepted_send.2
     = Holds (Parses (JDict Sample.stored)).
Proof.
  refine (proj2 (first_attempt_accepted_is_quiet Sample.accepting Send "hotmail"
                   "a@b.c" "subject" "body" (Holds (Parses (JDict Sample.stored)))
                   Sample.accepted_send.1 Sample.accepted_send.2
                   (generate_oauth2_string "me@hotmail.fr" "A1" false) []
                   _ _ _)).
  - apply surjective_pairing.
  - vm_compute. reflexivity.
  - reflexivity.
Defined.











(** ** More on opening a session *)

Ltac more_trace_norm :=
  cbn [trace token_file log initial app auth_strings token_requests count
       is_auth is_file_write is_token_request is_bearer is_login is_network
       logins tls_before_credentials andb] in *.

Lemma send_email_wp w account to_addr subject body st :
  wp (send_email w account to_addr subject body) returns_send_result st.
Proof.
  unfold send_email. wp_run.
  all: unfold returns_send_result, send_result_ok.
  all: repeat match goal with
         | H : PyVal.truthy_opt _ = true |- _ =>
             apply truthy_opt_true in H as (? & -> & ?)
         end.
  all: eexists; split; [reflexivity|].
  all: first
         [ left; eexists _, _, _, _, _; reflexivity
         | right; eexists; split; [reflexivity|]; split; [reflexivity|];
           first [ discriminate | assumption ] ].
Qed.

(** X1. [send_email] never raises: for every account, message, world and
    state it returns a dict that is a success, or a failure with
    [success: False] and a non-empty error message. *)
Theorem send_email_returns_result w account to_addr subject body st :
  exists r st',
    send_email w account to_addr subject body st = (Returns r, st')
    /\ ((exists message from_addr to_addr' subject' account',
            r = SendSuccess message from_addr to_addr' subject' account')
        \/ (exists e, r = SendFailure e /\ success e = false /\ error e <> "")).
Proof.
  destruct (wp_outcome _ _ _ (send_email_wp w account to_addr subject body st))
    as (o & st' & E & r & -> & H).
  exists r, st'. split; [exact E | exact H].
Qed.

Lemma open_session_static w r account to_addr subject body f :
  wp (open_session w r account to_addr subject body)
    (static_session w account f) (initial f).
Proof.
  destruct r; unfold open_session, connect_imap, send_email; wp_run.
  all: unfold static_session; intros config Hc Hu; simplify_eq.
  all: try congruence.
  all: more_trace_norm.
  all: repeat split; try reflexivity; lia.
Qed.

(** X2. Opening a session for an account in static-secret mode, in either
    role, makes no bearer authentication and no token request, does not
    write the token file, which holds what it held, and tries at most one
    login: a failed login is not retried. *)
Theorem static_session_stays_clear_of_oauth
    w r account to_addr subject body f config o st' :
  SERVERS w !! account = Some config ->
  use_oauth config = false ->
  open_session w r account to_addr subject body (initial f) = (o, st') ->
  count is_bearer (trace st') = 0
  /\ token_requests (trace st') = []
  /\ count is_file_write (trace st') = 0
  /\ token_file st' = f
  /\ count is_login (trace st') <= 1.
Proof.
  intros Hc Hu E.
  pose proof (open_session_static w r account to_addr subject body f) as H.
  unfold wp in H. rewrite E in H. exact (H config Hc Hu).
Qed.

Lemma static_session_stays_clear_of_oauth_witness :
  count is_bearer
    (trace (open_session Sample.accepting Send "gmail" "a@b.c" "subject" "body"
              (initial Missing)).2) = 0
  /\ token_requests
       (trace (open_session Sample.accepting Send "gmail" "a@b.c" "subject"
                 "body" (initial Missing)).2) = []
  /\ count is_file_write
       (trace (open_session Sample.accepting Send "gmail" "a@b.c" "subject"
                 "body" (initial Missing)).2) = 0
  /\ token_file
       (open_session Sample.accepting Send "gmail" "a@b.c" "subject" "body"
          (initial Missing)).2 = Missing
  /\ count is_login
       (trace (open_session Sample.accepting Send "gmail" "a@b.c" "subject"
                 "body" (initial Missing)).2) <= 1.
Proof.
  apply (static_session_stays_clear_of_oauth Sample.accepting Send "gmail"
           "a@b.c" "subject" "body" Missing gmail_config
           (open_session Sample.accepting Send "gmail" "a@b.c" "subject" "body"
              (initial Missing)).1).
  - reflexivity.
  - reflexivity.
  - apply surjective_pairing.
Defined.

Lemma send_email_tls_first w account to_addr subject body f :
  wp (send_email w account to_addr subject body) (tls_first w account) (initial f).
Proof.
  unfold send_email; wp_run.
  all: unfold tls_first; intros config Hc Hu; simplify_eq.
  all: try (destruct Hu; congruence).
  all: reflexivity.
Qed.

(** X3. On the connections [send_email] opens in the clear (the OAuth
    account, and a static account without [use_ssl_smtp]) no login and no
    bearer authentication is sent before [starttls()] has been called and
    has returned. *)
Theorem send_email_starttls_before_credentials
    w account to_addr subject body f config o st' :
  SERVERS w !! account = Some config ->
  use_oauth config = true \/ use_ssl_smtp config = false ->
  send_email w account to_addr subject body (initial f) = (o, st') ->
  tls_before_credentials false (trace st') = true.
Proof.
  intros Hc Hu E.
  pose proof (send_email_tls_first w account to_addr subject body f) as H.
  unfold wp in H. rewrite E in H. exact (H config Hc Hu).
Qed.

Lemma send_email_starttls_before_credentials_witness :
  tls_before_credentials false
    (trace (send_email Sample.accepting "hotmail" "a@b.c" "subject" "body"
              (initial (Holds (Parses (JDict Sample.stored))))).2) = true.
Proof.
  apply (send_email_starttls_before_credentials Sample.accepting "hotmail"
           "a@b.c" "subject" "body" (Holds (Parses (JDict Sample.stored)))
           hotmail_config
           (send_email Sample.accepting "hotmail" "a@b.c" "subject" "body"
              (initial (Holds (Parses (JDict Sample.stored))))).1).
  - reflexivity.
  - left. reflexivity.
  - apply surjective_pairing.
Defined.

(** ** The academy account: two login names *)







(** ** The token exchanges *)






(** ** Whose token a bearer authentication carries *)

Lemma getitem_returns key tokens x :
  PyVal.getitem key tokens = Returns x ->
  exists d : gmap string jval, tokens = JDict d /\ d !! key = Some x.
Proof.
  destruct tokens as [[| | |s]|l|d]; try discriminate.
  cbn [PyVal.getitem]. destruct (d !! key) eqn:E; [|discriminate].
  intros H. injection H as <-. eauto.
Qed.

Lemma get_credentials_returns w account config address password error :
  SERVERS w !! account = Some config ->
  get_credentials w account = (address, password, error) ->
  PyVal.truthy_opt error = false ->
  exists a, environ w !! email_env config = Some a /\ address = Some a.
Proof.
  intros Hc. unfold get_credentials, environ_get. rewrite Hc.
  destruct (environ w !! email_env config) as [a|] eqn:Ea; cbn [PyVal.truthy_opt].
  - destruct (PyStr.truthy a); cbn [negb].
    + destruct (negb (use_oauth config) && negb _).
      * intros H. injection H as <- <- <-. discriminate.
      * intros H. injection H as <- <- <-. eauto.
    + intros H. injection H as <- <- <-. discriminate.
  - cbn [negb]. intros H. injection H as <- <- <-. discriminate.
Qed.

Lemma open_session_bearer w r account to_addr subject body f :
  wp (open_session w r account to_addr subject body)
    (bearer_is_stored_token w r account f) (initial f).
Proof.
  destruct r; unfold open_session, connect_imap, send_email; wp_run.
  all: unfold bearer_is_stored_token; intros s1 rest H1; trace_norm.
  all: try discriminate H1.
  all: injection H1 as <- <-.
  all: match goal with
       | Hc : SERVERS _ !! _ = Some ?c, Ho : use_oauth ?c = true |- _ =>
           destruct (oauth_account_is_hotmail _ _ c Hc Ho) as [-> ->]
       end.
  all: match goal with
       | Hc : SERVERS _ !! _ = Some ?c,
         Hg : get_credentials _ _ = _, Ht : PyVal.truthy_opt _ = false |- _ =>
           destruct (get_credentials_returns _ _ c _ _ _ Hc Hg Ht)
             as (address & Ha & ->)
       end.
  all: repeat match goal with
       | Hg : PyVal.getitem _ _ = Returns _ |- _ =>
           apply getitem_returns in Hg as (? & ? & ?)
       end; simplify_eq.
  all: split; [reflexivity|]; eexists _, _, _.
  all: split; [eassumption|]; split; [reflexivity|]; split; [eassumption|].
  all: reflexivity.
Qed.

(** X6. Whenever opening a session sends a bearer authentication, the
    account is the Hotmail one, the token file held a dict with an
    [access_token] entry when the run began, and the first authentication
    is made in the name of [HOTMAIL_ADDRESS] with that stored token: the
    token is used as stored, whatever its age. *)
Theorem first_bearer_carries_stored_token
    w r account to_addr subject body f s1 rest :
  auth_strings r
    (trace (open_session w r account to_addr subject body (initial f)).2)
  = s1 :: rest ->
  account = "hotmail"
  /\ exists address (d : gmap string jval) a,
       environ w !! "HOTMAIL_ADDRESS" = Some address
       /\ f = Holds (Parses (JDict d))
       /\ d !! "access_token" = Some a
       /\ s1 = generate_oauth2_string address (PyVal.str a) false.
Proof.
  intros H.
  exact (open_session_bearer w r account to_addr subject body f s1 rest H).
Qed.

Lemma first_bearer_carries_stored_token_witness :
  exists address (d : gmap string jval) a,
    environ Sample.expiring !! "HOTMAIL_ADDRESS" = Some address
    /\ Holds (Parses (JDict Sample.stored)) = Holds (Parses (JDict d))
    /\ d !! "access_token" = Some a
    /\ generate_oauth2_string "me@hotmail.fr" "A1" false
       = generate_oauth2_string address (PyVal.str a) false.
Proof.
  apply (first_bearer_carries_stored_token Sample.expiring Read "hotmail"
           "a@b.c" "subject" "body" (Holds (Parses (JDict Sample.stored)))
           (generate_oauth2_string "me@hotmail.fr" "A1" false)
           [generate_oauth2_string "me@hotmail.fr" "A2" false]).
  reflexivity.
Defined.

(** ** An OAuth account without tokens *)





(** ** The window of message ids *)

(** X8. The ids [list_emails] and [search_emails] fetch. For a limit of at
    least one they are the last [limit] ids the server listed, newest
    first: the first [limit] of the reversed list, so [min limit n] of
    them. A limit of zero does not give an empty list: all ids are
    fetched. A negative limit drops the first [-limit] ids instead of
    keeping that many. *)
Theorem email_ids_window_spec {A} (limit : Z) (email_ids : list A) :
  ((1 <= limit)%Z ->
   email_ids_window limit email_ids
   = take (Z.to_nat limit) (reverse email_ids)
   /\ length (email_ids_window limit email_ids)
      = Nat.min (Z.to_nat limit) (length email_ids))
  /\ (limit = 0%Z -> email_ids_window limit email_ids = reverse email_ids)
  /\ ((limit < 0)%Z ->
      email_ids_window limit email_ids
      = reverse (drop (Z.to_nat (- limit)) email_ids)).
Proof.
  unfold email_ids_window, slice_from.
  split; [|split].
  - intros H.
    assert (email_ids_window limit email_ids
            = take (Z.to_nat limit) (reverse email_ids)) as E.
    { unfold email_ids_window, slice_from.
      destruct (limit <? Z.of_nat (length email_ids))%Z eqn:L.
      - apply Z.ltb_lt in L.
        destruct (- limit <? 0)%Z eqn:N; [|apply Z.ltb_ge in N; lia].
        rewrite Z.max_r by lia.
        replace (Z.to_nat (- limit + Z.of_nat (length email_ids)))
          with (length email_ids - Z.to_nat limit) by lia.
        symmetry. apply take_reverse.
      - apply Z.ltb_ge in L. rewrite take_ge; [reflexivity|].
        rewrite length_reverse. lia. }
    fold (slice_from (- limit) email_ids).
    fold (email_ids_window limit email_ids).
    rewrite E. split; [reflexivity|].
    rewrite length_take, length_reverse. reflexivity.
  - intros ->. cbn [Z.opp Z.ltb Z.compare].
    destruct (0 <? Z.of_nat (length email_ids))%Z; [|reflexivity].
    rewrite Z.min_l by lia. reflexivity.
  - intros H.
    destruct (limit <? Z.of_nat (length email_ids))%Z eqn:L;
      [|apply Z.ltb_ge in L; lia].
    destruct (- limit <? 0)%Z eqn:N; [apply Z.ltb_lt in N; lia|].
    destruct (Z.min_spec (- limit) (Z.of_nat (length email_ids)))
      as [[_ ->]|[Hge ->]]; [reflexivity|].
    rewrite !drop_ge by lia. reflexivity.
Qed.

Lemma email_ids_window_spec_witness :
  email_ids_window 2 ["1"; "2"; "3"] = ["3"; "2"]
  /\ email_ids_window 0 ["1"; "2"; "3"] = ["3"; "2"; "1"]
  /\ email_ids_window (-1) ["1"; "2"; "3"] = ["3"; "2"].
Proof.
  destruct (email_ids_window_spec 2 ["1"; "2"; "3"]) as (H2 & _ & _).
  destruct (email_ids_window_spec 0 ["1"; "2"; "3"]) as (_ & H0 & _).
  destruct (email_ids_window_spec (-1) ["1"; "2"; "3"]) as (_ & _ & Hn).
  split; [apply H2; lia|]. split; [apply H0; reflexivity|]. apply Hn; lia.
Defined.


(** ** Previews *)

Module TextFacts.
Import Text.

Lemma split_from_words acc s :
  Forall (fun c => isspace c = false) acc ->
  Forall word (split_from acc s).
Proof.
  revert acc. induction s as [|c rest IH]; intros acc Hacc; cbn [split_from].
  - destruct acc; constructor; [|constructor]. split; [discriminate|assumption].
  - destruct (isspace c) eqn:Ec.
    + destruct acc.
      * apply IH. constructor.
      * constructor; [split; [discriminate|assumption]|]. apply IH. constructor.
    + apply IH. apply Forall_app. split; [assumption|]. repeat constructor.
      assumption.
Qed.

Lemma isspace_SPACE : isspace SPACE = true.
Proof. reflexivity. Qed.

Lemma single_spaced_word w :
  Forall (fun c => isspace c = false) w -> single_spaced w = true.
Proof.
  induction 1 as [|c l Hc _ IH]; [reflexivity|].
  cbn [single_spaced]. rewrite Hc, IH. reflexivity.
Qed.

Lemma single_spaced_app_word w s :
  Forall (fun c => isspace c = false) w ->
  single_spaced s = true ->
  single_spaced (w ++ s)%list = true.
Proof.
  intros Hw Hs. induction Hw as [|c l Hc _ IH]; [assumption|].
  cbn [app single_spaced]. rewrite Hc, IH. reflexivity.
Qed.

Lemma join_cons w ws :
  join (w :: ws)
  = match ws with [] => w | _ :: _ => (w ++ SPACE :: join ws)%list end.
Proof. destruct ws; reflexivity. Qed.

Lemma join_nonempty w ws : word w -> join (w :: ws) <> [].
Proof.
  intros [Hne _]. rewrite join_cons.
  destruct ws, w; try congruence; discriminate.
Qed.

Lemma join_tidy ws : Forall word ws -> tidy (join ws) = true.
Proof.
  induction 1 as [|w ws [Hne Hw] Hws IH]; [reflexivity|].
  assert (match w with [] => true | x :: _ => negb (isspace x) end = true)
    as Hhead.
  { destruct Hw as [|c l Hc _]; [congruence|]. rewrite Hc. reflexivity. }
  rewrite join_cons. destruct ws as [|w' ws'].
  - unfold tidy. rewrite (single_spaced_word w Hw), Hhead. reflexivity.
  - unfold tidy in *. apply andb_prop in IH as [IH1 IH2].
    apply andb_true_intro. split.
    + apply single_spaced_app_word; [assumption|].
      cbn [single_spaced]. rewrite isspace_SPACE, IH1, N.eqb_refl.
      inversion Hws as [|? ? Hw' _]; subst.
      pose proof (join_nonempty w' ws' Hw') as Hj.
      destruct (join (w' :: ws')); [congruence|].
      rewrite IH2. reflexivity.
    + destruct w; [congruence|]. exact Hhead.
Qed.

Lemma single_spaced_one_line s : single_spaced s = true -> one_line s.
Proof.
  induction s as [|c s IH]; [constructor|].
  cbn [single_spaced]. intros H. apply andb_prop in H as [H1 H2].
  constructor; [|apply IH; assumption].
  intros Hc. rewrite Hc in H1. apply andb_prop in H1 as [H1 _].
  apply N.eqb_eq in H1. exact H1.
Qed.

Lemma clean_text_for_preview_tidy text :
  tidy (clean_text_for_preview text) = true.
Proof.
  unfold clean_text_for_preview, split. apply join_tidy, split_from_words.
  constructor.
Qed.

(** *** Lengths *)

Lemma replace_pair_step a b x y rest :
  replace_pair a b (x :: y :: rest)
  = if ((x =? a) && (y =? b))%N then SPACE :: replace_pair a b rest
    else x :: replace_pair a b (y :: rest).
Proof. reflexivity. Qed.

Lemma length_replace_pair a b s : length (replace_pair a b s) <= length s.
Proof.
  remember (length s) as n eqn:E.
  assert (length s <= n) as H by lia. clear E. revert s H.
  induction n as [|n IH]; intros s H.
  - destruct s; [cbn; lia|cbn in H; lia].
  - destruct s as [|x [|y rest]]; [cbn; lia|cbn; lia|].
    rewrite replace_pair_step. cbn [length] in H.
    destruct ((x =? a) && (y =? b))%N.
    + specialize (IH rest). cbn [length]. lia.
    + specialize (IH (y :: rest)). cbn [length] in IH.
      change (length (x :: ?l)) with (S (length l)). lia.
Qed.

Lemma length_replace_char c s : length (replace_char c s) = length s.
Proof. apply length_map. Qed.

Lemma length_join_split_from acc s :
  length (join (split_from acc s)) <= length acc + length s.
Proof.
  revert acc. induction s as [|c rest IH]; intros acc; cbn [split_from].
  - destruct acc; cbn [join length]; lia.
  - destruct (isspace c).
    + destruct acc as [|a acc'].
      * specialize (IH []). cbn [length] in *. lia.
      * rewrite join_cons. specialize (IH []).
        destruct (split_from [] rest).
        -- cbn [length]. lia.
        -- rewrite length_app. cbn [length] in *. lia.
    + specialize (IH (acc ++ [c])%list). rewrite length_app in IH.
      cbn [length] in *. lia.
Qed.

Lemma length_clean_text_for_preview text :
  length (clean_text_for_preview text) <= length text.
Proof.
  unfold clean_text_for_preview, split.
  pose proof (length_join_split_from []
    (replace_char RETURN
       (replace_char NEWLINE
          (replace_pair BACKSLASH LOWER_R
             (replace_pair BACKSLASH LOWER_N text))))) as H.
  rewrite !length_replace_char in H.
  pose proof (length_replace_pair BACKSLASH LOWER_R
                (replace_pair BACKSLASH LOWER_N text)).
  pose proof (length_replace_pair BACKSLASH LOWER_N text).
  cbn [length] in H. lia.
Qed.

(** *** Cleaning twice *)

Lemma has_pair_step a b x y rest :
  has_pair a b (x :: y :: rest)
  = ((x =? a) && (y =? b))%N || has_pair a b (y :: rest).
Proof. reflexivity. Qed.

Lemma has_pair_tail a b x s :
  has_pair a b (x :: s) = false -> has_pair a b s = false.
Proof.
  destruct s as [|y rest]; [reflexivity|].
  rewrite has_pair_step. intros H. apply orb_false_elim in H as [_ H]. exact H.
Qed.

Lemma has_pair_cons_SPACE a b s :
  a <> SPACE -> has_pair a b (SPACE :: s) = has_pair a b s.
Proof.
  intros Ha. destruct s as [|y rest]; [reflexivity|].
  rewrite has_pair_step.
  destruct (N.eqb_spec SPACE a); [congruence|]. reflexivity.
Qed.

Lemma has_pair_cons_cons_SPACE a b x s :
  b <> SPACE ->
  has_pair a b (x :: SPACE :: s) = has_pair a b (SPACE :: s).
Proof.
  intros Hb. rewrite has_pair_step.
  destruct (N.eqb_spec SPACE b); [congruence|].
  rewrite andb_false_r. reflexivity.
Qed.

Lemma replace_pair_absent a b s :
  has_pair a b s = false -> replace_pair a b s = s.
Proof.
  induction s as [|x tl IH]; [reflexivity|].
  destruct tl as [|y rest]; [reflexivity|].
  rewrite has_pair_step, replace_pair_step. intros H.
  apply orb_false_elim in H as [H1 H2]. rewrite H1, IH by assumption.
  reflexivity.
Qed.

Lemma replace_pair_head c d y rest :
  exists t, replace_pair c d (y :: rest) = y :: t
            \/ replace_pair c d (y :: rest) = SPACE :: t.
Proof.
  destruct rest as [|z rest]; [eexists; left; reflexivity|].
  rewrite replace_pair_step. destruct ((y =? c) && (z =? d))%N; eauto.
Qed.

Lemma has_pair_replace_pair a b c d s :
  a <> SPACE -> b <> SPACE ->
  (has_pair a b s = false \/ (c = a /\ d = b)) ->
  has_pair a b (replace_pair c d s) = false.
Proof.
  intros Ha Hb.
  remember (length s) as n eqn:E.
  assert (length s <= n) as Hn by lia. clear E. revert s Hn.
  induction n as [|n IH]; intros s Hn H.
  - destruct s; [reflexivity|cbn in Hn; lia].
  - destruct s as [|x [|y rest]]; [reflexivity|reflexivity|].
    cbn [length] in Hn. rewrite replace_pair_step.
    destruct ((x =? c) && (y =? d))%N eqn:Em.
    + rewrite has_pair_cons_SPACE by assumption.
      apply IH; [lia|].
      destruct H as [H|H]; [left|right; assumption].
      eapply has_pair_tail, has_pair_tail, H.
    + assert (has_pair a b (replace_pair c d (y :: rest)) = false) as Hr.
      { apply IH; [cbn [length]; lia|].
        destruct H as [H|H]; [left|right; assumption].
        eapply has_pair_tail, H. }
      destruct (replace_pair_head c d y rest) as (t & [Et|Et]);
        rewrite Et in *.
      * rewrite has_pair_step, Hr, orb_false_r.
        destruct H as [H|[-> ->]]; [|exact Em].
        rewrite has_pair_step in H. apply orb_false_elim in H as [H _].
        exact H.
      * rewrite has_pair_cons_cons_SPACE by assumption. exact Hr.
Qed.

Lemma has_pair_replace_char a b c s :
  a <> SPACE -> b <> SPACE ->
  has_pair a b s = false ->
  has_pair a b (replace_char c s) = false.
Proof.
  intros Ha Hb. unfold replace_char.
  induction s as [|x tl IH]; [reflexivity|].
  destruct tl as [|y rest]; [reflexivity|].
  rewrite has_pair_step. intros H. apply orb_false_elim in H as [H1 H2].
  specialize (IH H2). cbn [map] in *. rewrite has_pair_step, IH, orb_false_r.
  destruct (x =? c)%N.
  - destruct (N.eqb_spec SPACE a); [congruence|]. reflexivity.
  - destruct (y =? c)%N; [|exact H1].
    destruct (N.eqb_spec SPACE b); [congruence|]. apply andb_false_r.
Qed.

Lemma has_pair_app_false a b u v :
  has_pair a b (u ++ v)%list = false ->
  has_pair a b u = false /\ has_pair a b v = false.
Proof.
  induction u as [|x u IH]; [auto|].
  intros H. pose proof (has_pair_tail _ _ _ _ H) as Ht.
  destruct (IH Ht) as [Hu Hv]. split; [|exact Hv].
  destruct u as [|y u]; [reflexivity|].
  cbn [app] in H. rewrite has_pair_step in *.
  apply orb_false_elim in H as [H _]. rewrite H, Hu. reflexivity.
Qed.

Lemma has_pair_sep a b u v :
  a <> SPACE -> b <> SPACE ->
  has_pair a b u = false -> has_pair a b v = false ->
  has_pair a b (u ++ SPACE :: v)%list = false.
Proof.
  intros Ha Hb Hu Hv. induction u as [|x u IH].
  - cbn [app]. rewrite has_pair_cons_SPACE by assumption. exact Hv.
  - specialize (IH (has_pair_tail _ _ _ _ Hu)).
    destruct u as [|y u]; cbn [app] in *.
    + rewrite has_pair_cons_cons_SPACE by assumption. exact IH.
    + rewrite has_pair_step in *. apply orb_false_elim in Hu as [Hu _].
      rewrite Hu, IH. reflexivity.
Qed.

Lemma has_pair_join_split_from a b acc s :
  a <> SPACE -> b <> SPACE ->
  has_pair a b (acc ++ s)%list = false ->
  has_pair a b (join (split_from acc s)) = false.
Proof.
  intros Ha Hb. revert acc.
  induction s as [|c rest IH]; intros acc H; cbn [split_from].
  - rewrite app_nil_r in H. destruct acc; [reflexivity|exact H].
  - destruct (has_pair_app_false _ _ _ _ H) as [Hacc Hs].
    pose proof (IH [] (has_pair_tail _ _ _ _ Hs)) as Hrest.
    destruct (isspace c).
    + destruct acc as [|x acc']; [exact Hrest|].
      rewrite join_cons. destruct (split_from [] rest); [exact Hacc|].
      apply has_pair_sep; assumption.
    + apply IH. rewrite <- app_assoc. exact H.
Qed.

Lemma replace_char_one_line c s :
  one_line s -> isspace c = true -> c <> SPACE -> replace_char c s = s.
Proof.
  intros Hs Hc Hne. unfold replace_char.
  induction Hs as [|x s Hx _ IH]; [reflexivity|].
  cbn [map]. rewrite IH. destruct (N.eqb_spec x c) as [->|]; [|reflexivity].
  specialize (Hx Hc). congruence.
Qed.

Lemma join_split_from_tidy acc s :
  Forall (fun c => isspace c = false) acc ->
  single_spaced s = true ->
  (acc = [] -> tidy s = true) ->
  join (split_from acc s) = (acc ++ s)%list.
Proof.
  revert acc. induction s as [|c rest IH]; intros acc Hacc Hs Hhead.
  - cbn [split_from]. rewrite app_nil_r. destruct acc; reflexivity.
  - cbn [split_from]. cbn [single_spaced] in Hs.
    apply andb_prop in Hs as [Hc Hrest].
    destruct (isspace c) eqn:Ec.
    + apply andb_prop in Hc as [Hc Hnext]. apply N.eqb_eq in Hc. subst c.
      destruct rest as [|y rest']; [discriminate|].
      destruct acc as [|x acc'].
      { specialize (Hhead eq_refl). unfold tidy in Hhead.
        apply andb_prop in Hhead as [_ Hhead]. rewrite Ec in Hhead.
        discriminate. }
      assert (join (split_from [] (y :: rest')) = y :: rest') as E.
      { apply (IH []); [constructor|assumption|].
        intros _. unfold tidy. rewrite Hrest, Hnext. reflexivity. }
      rewrite join_cons.
      destruct (split_from [] (y :: rest')); [discriminate|].
      rewrite E. reflexivity.
    + rewrite IH; [rewrite <- app_assoc; reflexivity| |assumption|].
      * apply Forall_app. split; [assumption|]. repeat constructor. assumption.
      * intros E. destruct acc; discriminate.
Qed.

Lemma join_split_tidy s : tidy s = true -> join (split s) = s.
Proof.
  intros H. unfold split. rewrite join_split_from_tidy; [reflexivity|..].
  - constructor.
  - unfold tidy in H. apply andb_prop in H as [H _]. exact H.
  - intros _. exact H.
Qed.

Lemma clean_text_for_preview_no_pair text b :
  b = LOWER_N \/ b = LOWER_R ->
  has_pair BACKSLASH b (clean_text_for_preview text) = false.
Proof.
  intros Hcase. unfold clean_text_for_preview, split.
  assert (BACKSLASH <> SPACE) as Ha by discriminate.
  assert (b <> SPACE) as Hb by (destruct Hcase as [-> | ->]; discriminate).
  apply has_pair_join_split_from; [assumption..|]. cbn [app].
  do 2 (apply has_pair_replace_char; [assumption..|]).
  destruct Hcase as [-> | ->].
  - apply has_pair_replace_pair; [assumption..|]. left.
    apply has_pair_replace_pair; [assumption..|]. right. auto.
  - apply has_pair_replace_pair; [assumption..|]. right. auto.
Qed.

Lemma clean_text_for_preview_fixed s :
  tidy s = true ->
  has_pair BACKSLASH LOWER_N s = false ->
  has_pair BACKSLASH LOWER_R s = false ->
  clean_text_for_preview s = s.
Proof.
  intros Ht Hn Hr. unfold clean_text_for_preview.
  rewrite (replace_pair_absent _ _ _ Hn), (replace_pair_absent _ _ _ Hr).
  assert (one_line s) as Hl.
  { apply single_spaced_one_line. unfold tidy in Ht.
    apply andb_prop in Ht as [Ht _]. exact Ht. }
  rewrite (replace_char_one_line NEWLINE s Hl) by (reflexivity || discriminate).
  rewrite (replace_char_one_line RETURN s Hl) by (reflexivity || discriminate).
  apply join_split_tidy, Ht.
Qed.

End TextFacts.

(** X9. [clean_text_for_preview] gives a single line of words: no white
    space is left but single spaces, each between two words (none leading,
    none trailing, no two in a row), and neither a line break nor a
    backslash followed by [n] or [r] remains. The result is never longer
    than the text. *)
Theorem clean_text_for_preview_single_line text :
  Text.tidy (Text.clean_text_for_preview text) = true
  /\ Forall (fun c => Text.isspace c = true -> c = Text.SPACE)
       (Text.clean_text_for_preview text)
  /\ Text.has_pair Text.BACKSLASH Text.LOWER_N
       (Text.clean_text_for_preview text) = false
  /\ Text.has_pair Text.BACKSLASH Text.LOWER_R
       (Text.clean_text_for_preview text) = false
  /\ length (Text.clean_text_for_preview text) <= length text.
Proof.
  pose proof (TextFacts.clean_text_for_preview_tidy text) as Ht.
  split; [exact Ht|]. split.
  { apply TextFacts.single_spaced_one_line. unfold Text.tidy in Ht.
    apply andb_prop in Ht as [Ht _]. exact Ht. }
  split; [apply TextFacts.clean_text_for_preview_no_pair; auto|].
  split; [apply TextFacts.clean_text_for_preview_no_pair; auto|].
  apply TextFacts.length_clean_text_for_preview.
Qed.

(** X10. Cleaning is idempotent: a text that was cleaned is left as it is
    by cleaning it again. *)
Theorem clean_text_for_preview_idempotent text :
  Text.clean_text_for_preview (Text.clean_text_for_preview text)
  = Text.clean_text_for_preview text.
Proof.
  apply TextFacts.clean_text_for_preview_fixed.
  - apply TextFacts.clean_text_for_preview_tidy.
  - apply TextFacts.clean_text_for_preview_no_pair; auto.
  - apply TextFacts.clean_text_for_preview_no_pair; auto.
Qed.

(** X11. The preview of a message body is at most 153 characters long and
    has no white space but spaces. A body of at most 150 characters is
    shown cleaned and whole, without dots. The three dots depend on the
    length of the body as received, not of the cleaned text: a body of
    more than 150 characters ends in dots even when cleaning left less
    than 150 characters and nothing was cut. *)
Theorem preview_bounds body :
  length (Text.preview body) <= 153
  /\ Forall (fun c => Text.isspace c = true -> c = Text.SPACE)
       (Text.preview body)
  /\ (length body <= 150 ->
      Text.preview body = Text.clean_text_for_preview body
      /\ length (Text.preview body) <= length body)
  /\ (150 < length body ->
      length (Text.clean_text_for_preview body) <= 150 ->
      Text.preview body
      = (Text.clean_text_for_preview body
         ++ [Text.DOT; Text.DOT; Text.DOT])%list).
Proof.
  pose proof (TextFacts.length_clean_text_for_preview body) as Hlen.
  assert (Text.one_line (Text.clean_text_for_preview body)) as Hl.
  { apply TextFacts.single_spaced_one_line.
    pose proof (TextFacts.clean_text_for_preview_tidy body) as Ht.
    unfold Text.tidy in Ht. apply andb_prop in Ht as [Ht _]. exact Ht. }
  unfold Text.preview.
  destruct (150 <? length body)%nat eqn:E.
  - apply Nat.ltb_lt in E. split; [|split; [|split]].
    + rewrite length_app, length_take. cbn [length]. lia.
    + apply Forall_app. split; [apply Forall_take, Hl|].
      repeat constructor; discriminate.
    + lia.
    + intros _ H. rewrite take_ge by lia. reflexivity.
  - apply Nat.ltb_ge in E. split; [lia|]. split; [exact Hl|].
    split; [auto|lia].
Qed.

Lemma preview_bounds_witness :
  Text.preview (repeat Text.SPACE 151) = [Text.DOT; Text.DOT; Text.DOT].
Proof.
  destruct (preview_bounds (repeat Text.SPACE 151)) as (_ & _ & _ & H).
  apply H; vm_compute; lia.
Defined.


(** ** The bearer string identifies the user and the token *)

Lemma append_String c s t : String c s +:+ t = String c (s +:+ t).
Proof. reflexivity. Qed.

Lemma length_append s t :
  String.length (s +:+ t) = String.length s + String.length t.
Proof.
  induction s as [|c s IH]; [reflexivity|].
  rewrite append_String. cbn [String.length]. rewrite IH. reflexivity.
Qed.

Lemma append_inj_l s t t' : s +:+ t = s +:+ t' -> t = t'.
Proof.
  induction s as [|c s IH]; [auto|].
  rewrite !append_String. intros H. injection H as H. auto.
Qed.

Lemma append_inj_r s s' t : s +:+ t = s' +:+ t -> s = s'.
Proof.
  revert s'. induction s as [|c s IH]; intros [|c' s'] H.
  - reflexivity.
  - apply (f_equal String.length) in H. rewrite !length_append in H.
    cbn [String.length] in H. lia.
  - apply (f_equal String.length) in H. rewrite !length_append in H.
    cbn [String.length] in H. lia.
  - rewrite !append_String in H. injection H as -> H.
    f_equal. apply IH, H.
Qed.

Lemma split_at_first c s s' t t' :
  PyStr.contains_char c s = false ->
  PyStr.contains_char c s' = false ->
  s +:+ String c t = s' +:+ String c t' ->
  s = s' /\ t = t'.
Proof.
  revert s'. induction s as [|x s IH]; intros [|x' s'] Hs Hs' H.
  - cbn [append] in H. injection H as ->. auto.
  - rewrite append_String in H. cbn [append] in H. injection H as <- _.
    cbn [PyStr.contains_char] in Hs'. rewrite Ascii.eqb_refl in Hs'.
    discriminate.
  - rewrite append_String in H. cbn [append] in H. injection H as -> _.
    cbn [PyStr.contains_char] in Hs. rewrite Ascii.eqb_refl in Hs.
    discriminate.
  - rewrite !append_String in H. injection H as -> H.
    cbn [PyStr.contains_char] in Hs, Hs'.
    apply orb_false_elim in Hs as [_ Hs].
    apply orb_false_elim in Hs' as [_ Hs'].
    destruct (IH s' Hs Hs' H) as [-> ->]. auto.
Qed.

(** X12. The bearer string [connect_imap] and [send_email] send identifies
    the user and the token: for user names without the byte 0x01 (no
    e-mail address holds one), two calls give the same string only for the
    same user and the same token. *)
Theorem generate_oauth2_string_injective u t u' t' :
  PyStr.contains_char (ascii_of_N 1) u = false ->
  PyStr.contains_char (ascii_of_N 1) u' = false ->
  generate_oauth2_string u t false = generate_oauth2_string u' t' false ->
  u = u' /\ t = t'.
Proof.
  intros Hu Hu'. unfold generate_oauth2_string, SOH. intros H.
  apply append_inj_l in H.
  destruct (split_at_first _ _ _ _ _ Hu Hu' H) as [-> H'].
  split; [reflexivity|].
  apply append_inj_l in H'. apply append_inj_r in H'. exact H'.
Qed.

Lemma generate_oauth2_string_injective_witness :
  "me@hotmail.fr" = "me@hotmail.fr" /\ "A1" = "A1".
Proof.
  apply (generate_oauth2_string_injective "me@hotmail.fr" "A1"
           "me@hotmail.fr" "A1"); reflexivity.
Defined.

(** Without the condition on the user names the strings can collide. *)
Example generate_oauth2_string_collision :
  generate_oauth2_string ("a" +:+ SOH +:+ "auth=Bearer b") "c" false
  = generate_oauth2_string "a" ("b" +:+ SOH +:+ "auth=Bearer c") false.
Proof. reflexivity. Qed.

(** ** What [oauth_status] answers *)


(** ** Credentials of the OAuth account, and blank secrets *)

(** X14. For an account in OAuth mode no password is needed: resolution
    fails exactly when the address is unset or empty, with the error
    [Missing <address variable>], and otherwise returns the address with
    whatever the password variable holds, spaces removed, or [None]. *)
Theorem get_credentials_oauth_mode w account config :
  SERVERS w !! account = Some config ->
  use_oauth config = true ->
  (PyVal.truthy_opt (environ w !! email_env config) = false
   /\ get_credentials w account
      = (None, None, Some ("Missing " +:+ email_env config)))
  \/ (exists a,
        environ w !! email_env config = Some a /\ a <> ""
        /\ get_credentials w account
           = (Some a,
              PyStr.replace_space <$> environ w !! password_env config,
              None)).
Proof.
  intros Hc Ho. unfold get_credentials, environ_get. rewrite Hc, Ho.
  cbn [negb andb].
  destruct (environ w !! email_env config) as [[|c a]|] eqn:Ea;
    cbn [PyVal.truthy_opt PyStr.truthy negb]; [left; auto| |left; auto].
  right. eexists. split; [reflexivity|]. split; [discriminate|].
  destruct (environ w !! password_env config) as [[|c' p]|]; reflexivity.
Qed.

Lemma get_credentials_oauth_mode_witness :
  get_credentials Sample.accepting "hotmail"
  = (Some "me@hotmail.fr", None, None).
Proof.
  destruct (get_credentials_oauth_mode Sample.accepting "hotmail"
              hotmail_config) as [[E _]|(a & Ea & _ & E)];
    [reflexivity | reflexivity | discriminate E |].
  injection Ea as <-. exact E.
Defined.

Lemma replace_space_blank s :
  forallb (Ascii.eqb " ") (list_ascii_of_string s) = true ->
  PyStr.replace_space s = "".
Proof.
  induction s as [|c s IH]; [reflexivity|].
  cbn [list_ascii_of_string forallb PyStr.replace_space].
  intros H. apply andb_prop in H as [Hc Hs].
  rewrite Ascii.eqb_sym, Hc. apply IH, Hs.
Qed.

(** X15. A secret made of spaces only is not reported as missing: for an
    account in static-secret mode with its address set, such a secret
    passes the check and resolves to the empty password. *)
Theorem get_credentials_blank_secret w account config a s :
  SERVERS w !! account = Some config ->
  use_oauth config = false ->
  environ w !! email_env config = Some a -> a <> "" ->
  environ w !! password_env config = Some s -> s <> "" ->
  forallb (Ascii.eqb " ") (list_ascii_of_string s) = true ->
  get_credentials w account = (Some a, Some "", None).
Proof.
  intros Hc Ho Ha Hna Hs Hns Hblank.
  unfold get_credentials, environ_get. rewrite Hc, Ho, Ha, Hs.
  destruct a; [congruence|]. destruct s as [|c s]; [congruence|].
  cbn [PyVal.truthy_opt PyStr.truthy negb andb fmap option_fmap option_map].
  rewrite (replace_space_blank _ Hblank). reflexivity.
Qed.

Lemma get_credentials_blank_secret_witness :
  get_credentials
    (Sample.make (<["GMAIL_APP_PASSWORD" := "   "]> Sample.settings)
       (fun _ => Fails (OSError "unreachable")) (fun _ => None) (fun _ => None))
    "gmail"
  = (Some "me@gmail.com", Some "", None).
Proof.
  apply (get_credentials_blank_secret _ "gmail" gmail_config "me@gmail.com"
           "   ");
    first [reflexivity | discriminate].
Defined.

(** ** Handing over the message *)

Lemma send_email_delivers_once w account to_addr subject body f :
  wp (send_email w account to_addr subject body)
    (delivered_once w account to_addr subject) (initial f).
Proof.
  unfold send_email; wp_run.
  all: unfold delivered_once.
  all: cbn [trace token_file log initial app count is_send_message].
  all: (split; [lia|]).
  all: intros message from_addr to_addr' subject' account' E.
  all: try discriminate E.
  all: injection E as <- <- <- <- <-.
  all: match goal with
       | Hc : SERVERS _ !! _ = Some ?c,
         Hg : get_credentials _ _ = _, Ht : PyVal.truthy_opt _ = false |- _ =>
           destruct (get_credentials_returns _ _ c _ _ _ Hc Hg Ht)
             as (address & Ha & ->)
       end.
  all: cbn [PyVal.str_opt default].
  all: split; [assumption|].
  all: split; [reflexivity|].
  all: split; [reflexivity|].
  all: split; [eauto|].
  all: auto.
Qed.

(** X16. [send_email] hands the message to the server at most once per
    call, also when the token is renewed and the authentication tried
    again. It reports a success only when the server accepted the message,
    as the last step of the run; the success names the configured address
    of the account as sender and the recipient, subject and account of the
    call. *)
Theorem send_email_delivers_at_most_once w account to_addr subject body f :
  count is_send_message
    (trace (send_email w account to_addr subject body (initial f)).2) <= 1
  /\ forall message from_addr to_addr' subject' account',
       (send_email w account to_addr subject body (initial f)).1
       = Returns (SendSuccess message from_addr to_addr' subject' account') ->
       smtp_send_message w = None
       /\ count is_send_message
            (trace (send_email w account to_addr subject body (initial f)).2)
          = 1
       /\ last (trace (send_email w account to_addr subject body (initial f)).2)
          = Some SendMessage
       /\ (exists config,
              SERVERS w !! account = Some config
              /\ environ w !! email_env config = Some from_addr)
       /\ to_addr' = to_addr /\ subject' = subject /\ account' = account
       /\ message
          = "Email sent successfully from " +:+ from_addr +:+ " to " +:+ to_addr.
Proof. exact (send_email_delivers_once w account to_addr subject body f). Qed.

Lemma send_email_delivers_at_most_once_witness :
  last (trace (send_email Sample.accepting "gmail" "a@b.c" "subject" "body"
                 (initial Missing)).2) = Some SendMessage.
Proof.
  destruct (send_email_delivers_at_most_once Sample.accepting "gmail" "a@b.c"
              "subject" "body" Missing) as [_ H].
  edestruct H as (_ & _ & L & _); [reflexivity|]. exact L.
Defined.

(** ** Handing out a session *)

Lemma connect_imap_authenticated w account f :
  wp (connect_imap w account) (session_is_authenticated w account) (initial f).
Proof.
  unfold connect_imap; wp_run.
  all: unfold session_is_authenticated; intros mail err E.
  all: try discriminate E.
  all: injection E as <- <-.
  all: split; [reflexivity|]; split; [eauto|].
  all: unfold ends_authenticated.
  all: cbn [trace token_file log initial app count is_auth last Nat.sub].
  all: assumption.
Qed.

(** X17. [connect_imap] hands out a session only once the server has
    accepted the credentials: when it returns a session, the error beside
    it is [None], the session is for the configured host and port of the
    account, and the last step of the run is the login or bearer
    authentication the server accepted. *)
Theorem connect_imap_session_is_authenticated w account f mail err st' :
  connect_imap w account (initial f) = (Returns (Some mail, err), st') ->
  err = None
  /\ (exists config,
         SERVERS w !! account = Some config
         /\ mail = IMAP4_SSL (imap config) (imap_port config))
  /\ ends_authenticated w (trace st').
Proof.
  intros E. pose proof (connect_imap_authenticated w account f) as H.
  unfold wp in H. rewrite E in H. exact (H mail err eq_refl).
Qed.

Lemma connect_imap_session_is_authenticated_witness :
  ends_authenticated Sample.accepting
    (trace (connect_imap Sample.accepting "gmail" (initial Missing)).2).
Proof.
  destruct (connect_imap_session_is_authenticated Sample.accepting "gmail"
              Missing (IMAP4_SSL "imap.gmail.com" 993) None
              (connect_imap Sample.accepting "gmail" (initial Missing)).2)
    as (_ & _ & H); [reflexivity | exact H].
Defined.

(** ** The one connection of a session *)

Lemma open_session_connects_once w r account to_addr subject body f :
  wp (open_session w r account to_addr subject body)
    (connects_once w r account) (initial f).
Proof.
  destruct r; unfold open_session, connect_imap, send_email; wp_run.
  all: unfold connects_once.
  all: cbn [trace token_file log initial app].
  all: first
         [ left; reflexivity
         | right; eexists _, _; split; [eassumption|];
           split; [cbn [host_of];
                   match goal with
                   | H : negb (PyStr.truthy ?h) = false |- PyStr.truthy ?h = true =>
                       destruct (PyStr.truthy h); [reflexivity|discriminate H]
                   end|];
           split; reflexivity ].
Qed.

(** X18. Opening a session, in either role, opens at most one connection,
    to the host and port configured for the account and the role, and
    nothing happens before it: every login, authentication, token request
    and token write of the run comes after that one connection. *)
Theorem open_session_single_connection
    w r account to_addr subject body f :
  trace (open_session w r account to_addr subject body (initial f)).2 = []
  \/ exists config rest,
       SERVERS w !! account = Some config
       /\ PyStr.truthy (host_of r config) = true
       /\ trace (open_session w r account to_addr subject body (initial f)).2
          = Connect r (host_of r config) (port_of r config) :: rest
       /\ count is_connect rest = 0.
Proof. exact (open_session_connects_once w r account to_addr subject body f). Qed.
